(** * Pixel issue detection: rule engine, fusion policy, feedback store

    A shallow embedding of the detection-and-learning core of the
    repository:

    - [src/pixel_notification_monitor.py]: [extract_text_from_rich_format]
      and [is_pixel_related_ticket];
    - [src/enhanced_pixel_monitor.py]: [estimate_rule_confidence];
    - [src/archive/learning_system.py]: [init_database], [record_feedback],
      [process_feedback_to_training_data], [predict_ml], [hybrid_detection]
      and [analyze_patterns].

    Conventions.  A Python [str] is a [string]; substring containment
    ([needle in text]) is [str_in].  [str.lower], [str.split] and the
    builtin [str()] are parameters of the sections that use them;
    [ascii_lower] and [ascii_split] are their instances on ASCII text and
    are used wherever a concrete ticket is evaluated.  Confidence values
    are Python floats in the source; they are modelled as exact rationals
    ([Q]).  A Python exception is the [Raise] constructor of [result].

    The normalizer and the rule engine are modelled twice.  The first
    model has no limit on nested calls and a [str()] that always
    returns; it serves wherever the body is a string or the rule engine
    is known to return.  Module [Limited] has the interpreter's limit on
    nested calls, and a [str()] and a [logger.debug] that may raise; the
    statements on what the normalizer and the rule engine raise are made
    there. *)

From Stdlib Require Import List String Ascii Bool Arith Lia ZArith QArith
  Qminmax Lqa Permutation Sorted.
Import ListNotations.

Local Close Scope Q_scope.
Local Open Scope string_scope.
Local Open Scope nat_scope.
Local Open Scope list_scope.

(* ================================================================= *)
(** ** Strings *)

Module Str.

(** [needle in hay] on Python strings: naive substring containment. *)
Fixpoint str_in (needle hay : string) : bool :=
  String.prefix needle hay
  || match hay with
     | EmptyString => false
     | String _ hay' => str_in needle hay'
     end.

(** [sep.join(parts)]. *)
Fixpoint join (sep : string) (parts : list string) : string :=
  match parts with
  | [] => ""
  | [p] => p
  | p :: rest => (p ++ sep ++ join sep rest)%string
  end.

(** [str.lower] on ASCII text: only [A]-[Z] change. *)
Definition lower_ascii (c : ascii) : ascii :=
  let n := nat_of_ascii c in
  if (65 <=? n) && (n <=? 90) then ascii_of_nat (n + 32) else c.

Fixpoint ascii_lower (s : string) : string :=
  match s with
  | EmptyString => EmptyString
  | String c s' => String (lower_ascii c) (ascii_lower s')
  end.

(** The characters [str.split()] treats as separators, within ASCII:
    tab, line feed, vertical tab, form feed, carriage return, the four
    information separators [0x1c]-[0x1f], and space. *)
Definition is_space (c : ascii) : bool :=
  let n := nat_of_ascii c in
  ((9 <=? n) && (n <=? 13)) || ((28 <=? n) && (n <=? 32)).

(** [str.split()] with no argument: maximal runs of non-separators.
    [cur] is the token being read, in reverse. *)
Fixpoint split_aux (s : string) (cur : list ascii) : list string :=
  let flush (rest : list string) :=
    match cur with
    | [] => rest
    | _ => string_of_list_ascii (rev cur) :: rest
    end in
  match s with
  | EmptyString => flush []
  | String c s' =>
      if is_space c then flush (split_aux s' [])
      else split_aux s' (c :: cur)
  end.

Definition ascii_split (s : string) : list string := split_aux s [].

(** The one-character strings of [s]: what iterating a [str] yields. *)
Fixpoint chars (s : string) : list string :=
  match s with
  | EmptyString => []
  | String c s' => String c EmptyString :: chars s'
  end.

End Str.
Import Str.

(* ================================================================= *)
(** ** Exceptions *)

Inductive exn : Type :=
| TypeError
| RecursionError.

Inductive result (A : Type) : Type :=
| Ok (a : A)
| Raise (e : exn).
Arguments Ok {A} a.
Arguments Raise {A} e.

Definition bind {A B : Type} (r : result A) (k : A -> result B) : result B :=
  match r with
  | Ok a => k a
  | Raise e => Raise e
  end.

Notation "x <- r ;; k" := (bind r (fun x => k))
  (at level 61, r at next level, right associativity).

(** [try: body  except Exception: handler]. *)
Definition try_except {A : Type} (body : result A) (handler : exn -> result A)
  : result A :=
  match body with
  | Ok a => Ok a
  | Raise e => handler e
  end.

(* ================================================================= *)
(** ** Ticket bodies *)

(** A ticket body as the tracker's JSON decodes it: a string, a dict
    (keys in insertion order), a list, or a scalar that is none of the
    three ([None], a boolean, a number). *)
#[warnings="-register-all"]
Inductive pyval : Type :=
| PStr (s : string)
| PDict (items : list (string * pyval))
| PList (elems : list pyval)
| PNone
| PBool (b : bool)
| PNum (q : Q).

(** Induction on ticket bodies, through the lists of a dict and of a
    list. *)
Section PyvalInduction.

Variable P : pyval -> Prop.
Hypothesis Hstr : forall s, P (PStr s).
Hypothesis Hdict :
  forall items, Forall (fun kv => P (snd kv)) items -> P (PDict items).
Hypothesis Hlist : forall elems, Forall P elems -> P (PList elems).
Hypothesis Hnone : P PNone.
Hypothesis Hbool : forall b, P (PBool b).
Hypothesis Hnum : forall q, P (PNum q).

Fixpoint pyval_induction (data : pyval) : P data :=
  match data with
  | PStr s => Hstr s
  | PDict items =>
      Hdict items
        ((fix go (kvs : list (string * pyval))
            : Forall (fun kv => P (snd kv)) kvs :=
            match kvs with
            | [] => Forall_nil _
            | kv :: kvs' =>
                Forall_cons kv (pyval_induction (snd kv)) (go kvs')
            end) items)
  | PList elems =>
      Hlist elems
        ((fix go (l : list pyval) : Forall P l :=
            match l with
            | [] => Forall_nil _
            | x :: l' => Forall_cons x (pyval_induction x) (go l')
            end) elems)
  | PNone => Hnone
  | PBool b => Hbool b
  | PNum q => Hnum q
  end.

End PyvalInduction.

(** Truthiness ([if description:]). *)
Definition truthy (v : pyval) : bool :=
  match v with
  | PStr s => negb (String.eqb s "")
  | PDict items => match items with [] => false | _ => true end
  | PList elems => match elems with [] => false | _ => true end
  | PNone => false
  | PBool b => b
  | PNum q => negb (Qeq_bool q 0)
  end.

(** [key in d]. *)
Definition has_key (key : string) (items : list (string * pyval)) : bool :=
  existsb (fun kv => String.eqb (fst kv) key) items.

Section Normalizer.

(** The builtin [str()] on values that are not strings. *)
Variable py_str : pyval -> string.

(** [extract_text_from_rich_format], lines 55-73.

    [for item in data['content']] iterates a list by its elements, a dict
    by its keys and a string by its characters, and raises [TypeError] on
    anything else; [' '.join] raises [TypeError] on a part that is not a
    string. *)
Fixpoint extract_text_from_rich_format (data : pyval) : result string :=
  let each :=
    fix each (items : list pyval) : result (list string) :=
      match items with
      | [] => Ok []
      | item :: rest =>
          t <- extract_text_from_rich_format item ;;
          ts <- each rest ;;
          Ok (t :: ts)
      end in
  match data with
  | PStr s => Ok s
  | PDict items =>
      if has_key "content" items then
        (fix content (kvs : list (string * pyval)) : result string :=
           match kvs with
           | [] => Ok (join " " [])
           | (k, v) :: kvs' =>
               if String.eqb k "content" then
                 match v with
                 | PList elems =>
                     text_parts <- each elems ;; Ok (join " " text_parts)
                 | PDict sub => Ok (join " " (map fst sub))
                 | PStr s => Ok (join " " (chars s))
                 | PNone | PBool _ | PNum _ => Raise TypeError
                 end
               else content kvs'
           end) items
      else if has_key "text" items then
        (fix text (kvs : list (string * pyval)) : result string :=
           match kvs with
           | [] => Ok (join " " [])
           | (k, v) :: kvs' =>
               if String.eqb k "text" then
                 match v with
                 | PStr s => Ok (join " " [s])
                 | _ => Raise TypeError
                 end
               else text kvs'
           end) items
      else Ok (join " " [])
  | PList elems =>
      text_parts <- each elems ;; Ok (join " " text_parts)
  | PNone | PBool _ | PNum _ => Ok (py_str data)
  end.

(** The [desc_text] local of [is_pixel_related_ticket], lines 114-126. *)
Definition desc_text (description : pyval) : result string :=
  if truthy description then
    try_except
      (match description with
       | PDict _ => extract_text_from_rich_format description
       | PStr s => Ok s
       | _ => Ok (py_str description)
       end)
      (fun _ => Ok (if truthy description then py_str description else ""))
  else Ok "".

(** The loop [for item in items: text_parts.append(...)] of
    [extract_text_from_rich_format], on its own. *)
Fixpoint each_text (items : list pyval) : result (list string) :=
  match items with
  | [] => Ok []
  | item :: rest =>
      t <- extract_text_from_rich_format item ;;
      ts <- each_text rest ;;
      Ok (t :: ts)
  end.

End Normalizer.

(* ================================================================= *)
(** ** Rule engine *)

Definition exclusions : list string :=
  [ "acr"; "delivery report"; "access request"; "grant access";
    "monitoring alert"; "o&o monitoring"; "user sync"; "sync pixel";
    "planning module"; "linear ads" ].

Definition high_confidence_keywords : list string :=
  [ "pixel validation"; "pixel firing"; "pixel not firing";
    "conversion pixel"; "tracking pixel"; "universal tag"; "piggyback";
    "appending a pixel"; "append pixel" ].

Definition pixel_contexts : list string :=
  [ "confirmation"; "conversion"; "firing"; "tracking"; "validation";
    "website"; "page"; "code"; "tag"; "implement"; "install"; "setup";
    "not working"; "0 conversions"; "troubleshoot" ].

Definition tracking_keywords : list string :=
  [ "tracking"; "tag"; "javascript"; "js" ].

Definition action_keywords : list string :=
  [ "implement"; "install"; "setup"; "add"; "place"; "deploy" ].

Definition web_terms : list string := [ "web"; "website"; "page"; "tag" ].

(** [for w in words: if w in text: return ...]: the first word of the
    list that occurs in the text. *)
Definition first_in (words : list string) (text : string) : option string :=
  find (fun w => str_in w text) words.

(** [any(w in text for w in words)]. *)
Definition any_in (words : list string) (text : string) : bool :=
  existsb (fun w => str_in w text) words.

Section RuleEngine.

Variable lower : string -> string.
Variable py_str : pyval -> string.

(** Steps 1-5 of [is_pixel_related_ticket] on the combined lowercased
    text, lines 131-198. *)
Definition classify_text (text : string) : bool * string :=
  match first_in exclusions text with
  | Some exclusion => (false, ("excluded:" ++ exclusion)%string)
  | None =>
  match first_in high_confidence_keywords text with
  | Some keyword => (true, ("high:" ++ keyword)%string)
  | None =>
  match (if str_in "pixel" text then first_in pixel_contexts text
         else None) with
  | Some context => (true, ("pixel_context:" ++ context)%string)
  | None =>
      let has_tracking := any_in tracking_keywords text in
      let has_action := any_in action_keywords text in
      if has_tracking && has_action then (true, "medium:tracking_action")
      else if str_in "conversion" text && any_in web_terms text
      then (true, "medium:conversion_web")
      else (false, "no_match")
  end end end.

(** [is_pixel_related_ticket(summary, description='')], lines 101-198.
    [summary] is a string or [None]; it is falsy when it is [None] or
    empty. *)
Definition is_pixel_related_ticket
    (summary : option string) (description : pyval)
  : result (bool * string) :=
  match summary with
  | None => Ok (false, "no_summary")
  | Some summary =>
      if String.eqb summary "" then Ok (false, "no_summary")
      else
        desc <- desc_text py_str description ;;
        let text := lower (summary ++ " " ++ desc)%string in
        Ok (classify_text text)
  end.

End RuleEngine.

(* ================================================================= *)
(** ** Rule confidence table *)

Definition confidence_map : list (string * Q) :=
  [ ("high:pixel_validation", 0.95%Q);
    ("high:pixel_not_firing", 0.95%Q);
    ("high:conversion_pixel", 0.90%Q);
    ("high:tracking_pixel", 0.90%Q);
    ("high:universal_tag", 0.90%Q);
    ("high:append_pixel", 0.85%Q);
    ("medium:tracking_action", 0.60%Q);
    ("medium:conversion_web", 0.70%Q);
    ("pixel_context:firing", 0.85%Q);
    ("pixel_context:validation", 0.85%Q);
    ("pixel_context:setup", 0.75%Q);
    ("pixel_context:conversion", 0.80%Q);
    ("no_match", 0.0%Q) ].

(** [d.get(key)]. *)
Fixpoint dict_get {V : Type} (d : list (string * V)) (key : string)
  : option V :=
  match d with
  | [] => None
  | (k, v) :: d' => if String.eqb k key then Some v else dict_get d' key
  end.

(** [estimate_rule_confidence], lines 48-73:
    [confidence_map.get(rule_reason, 0.5)]. *)
Definition estimate_rule_confidence (rule_reason : string) : Q :=
  match dict_get confidence_map rule_reason with
  | Some c => c
  | None => 0.5%Q
  end.

(* ================================================================= *)
(** ** Fusion policy *)

(** [a > b] on confidences. *)
Definition Qgtb (a b : Q) : bool := negb (Qle_bool a b).

(** The builtin [max] on the two class probabilities: the first maximal
    element. *)
Definition py_max (p : Q * Q) : Q :=
  if Qgtb (snd p) (fst p) then snd p else fst p.

(** [description or ""]. *)
Definition or_empty (description : option string) : string :=
  match description with
  | Some d => d
  | None => ""
  end.

Section Fusion.

Variable lower : string -> string.

(** The fitted classifier and its vectorizer (scikit-learn objects):
    [vectorizer.transform([text])], [model.predict(v)[0]] and
    [model.predict_proba(v)[0]], the probabilities of the two classes. *)
Variables Model Vectorizer Vec : Type.
Variable transform : Vectorizer -> string -> Vec.
Variable predict : Model -> Vec -> bool.
Variable predict_proba : Model -> Vec -> Q * Q.

(** [extract_features], lines 162-194; the fusion weights do not read
    its result, which is only copied into the analysis. *)
Variable Features : Type.
Variable extract_features : string -> option string -> Features.

(** The [model] and [vectorizer] attributes of the learning system. *)
Record learning_system : Type := {
  model : option Model;
  vectorizer : option Vectorizer
}.

(** The analysis dictionary returned by [hybrid_detection]. *)
Record analysis : Type := {
  rule_based : bool * Q;
  ml_based : bool * Q;
  combined_score : Q;
  features : Features;
  method : string
}.

(** [predict_ml], lines 296-307. *)
Definition predict_ml (self : learning_system)
    (summary : string) (description : option string) : bool * Q :=
  match model self, vectorizer self with
  | Some m, Some v =>
      let text := lower (summary ++ " " ++ or_empty description)%string in
      let text_vec := transform v text in
      let prediction := predict m text_vec in
      let confidence := py_max (predict_proba m text_vec) in
      (prediction, confidence)
  | _, _ => (false, 0.0%Q)
  end.

(** [hybrid_detection], lines 309-350. *)
Definition hybrid_detection (self : learning_system)
    (summary : string) (description : option string)
    (rule_based_result : bool) (rule_confidence : Q)
  : bool * Q * analysis :=
  let '(ml_prediction, ml_confidence) := predict_ml self summary description in
  let features := extract_features summary description in
  let '(final_prediction, combined_score, ml_prediction, ml_confidence) :=
    match model self with
    | Some _ =>
        let '(rule_weight, ml_weight) :=
          if Qgtb ml_confidence 0.8%Q then (0.4%Q, 0.6%Q) else (0.6%Q, 0.4%Q) in
        let combined_score :=
          ((rule_confidence * rule_weight) + (ml_confidence * ml_weight))%Q in
        let final_prediction := Qgtb combined_score 0.5%Q in
        (final_prediction, combined_score, ml_prediction, ml_confidence)
    | None =>
        (rule_based_result, rule_confidence, rule_based_result, rule_confidence)
    end in
  let analysis :=
    {| rule_based := (rule_based_result, rule_confidence);
       ml_based := (ml_prediction, ml_confidence);
       combined_score := combined_score;
       features := features;
       method := match model self with
                 | Some _ => "hybrid"
                 | None => "rule_based_only"
                 end |} in
  (final_prediction, combined_score, analysis).

End Fusion.

Arguments model {Model Vectorizer} _.
Arguments vectorizer {Model Vectorizer} _.
Arguments rule_based {Features} _.
Arguments ml_based {Features} _.
Arguments combined_score {Features} _.
Arguments features {Features} _.
Arguments method {Features} _.
Arguments predict_ml lower {Model Vectorizer Vec} transform predict
  predict_proba self summary description.
Arguments hybrid_detection lower {Model Vectorizer Vec} transform predict
  predict_proba {Features} extract_features self summary description
  rule_based_result rule_confidence.

(* ================================================================= *)
(** ** Feedback store and training store *)

(** The values the [CHECK] constraint of [feedback.user_feedback]
    admits. *)
Inductive user_feedback : Type :=
| true_positive
| false_positive
| false_negative.

Definition user_feedback_eqb (a b : user_feedback) : bool :=
  match a, b with
  | true_positive, true_positive
  | false_positive, false_positive
  | false_negative, false_negative => true
  | _, _ => false
  end.

(** A row of table [feedback] (lines 46-58).  The [timestamp] column is
    written by the database and read by no query below. *)
Record feedback_row : Type := {
  fb_id : nat;
  fb_ticket_id : string;
  fb_summary : string;
  fb_description : option string;
  fb_detection_reason : string;
  fb_user_feedback : user_feedback;
  fb_confidence_score : option Q;
  fb_processed : bool
}.

(** A row of table [training_data] (lines 61-71); [td_features] is the
    JSON text of the features. *)
Record training_row : Type := {
  td_id : nat;
  td_ticket_id : string;
  td_summary : string;
  td_description : option string;
  td_is_pixel_related : bool;
  td_features : string
}.

(** The two tables, each in rowid order, with the [AUTOINCREMENT]
    counter of each ([sqlite_sequence]). *)
Record database : Type := {
  feedback : list feedback_row;
  feedback_seq : nat;
  training_data : list training_row;
  training_seq : nat
}.

(** [init_database] on a fresh file: both tables empty. *)
Definition init_database : database :=
  {| feedback := []; feedback_seq := 0;
     training_data := []; training_seq := 0 |}.

(** [INSERT OR REPLACE INTO feedback (ticket_id, ...) VALUES (...)],
    lines 113-117.  The only uniqueness constraint of the table is the
    primary key [id], which the statement does not supply: no existing
    row conflicts, the row is appended under a fresh id, with
    [processed] at its default [FALSE]. *)
Definition insert_or_replace_feedback (db : database)
    (ticket_id summary : string) (description : option string)
    (detection_reason : string) (label : user_feedback)
    (confidence_score : option Q) : database :=
  let id := S (feedback_seq db) in
  {| feedback := feedback db ++
       [ {| fb_id := id; fb_ticket_id := ticket_id; fb_summary := summary;
            fb_description := description;
            fb_detection_reason := detection_reason;
            fb_user_feedback := label;
            fb_confidence_score := confidence_score;
            fb_processed := false |} ];
     feedback_seq := id;
     training_data := training_data db;
     training_seq := training_seq db |}.

(** [INSERT OR REPLACE INTO training_data (ticket_id, ...) VALUES (...)],
    lines 147-151.  [ticket_id] is [UNIQUE]: the rows holding the same
    ticket_id are deleted, then the new row is appended under a fresh
    id. *)
Definition insert_or_replace_training (db : database)
    (ticket_id summary : string) (description : option string)
    (is_pixel_related : bool) (features : string) : database :=
  let id := S (training_seq db) in
  {| feedback := feedback db;
     feedback_seq := feedback_seq db;
     training_data :=
       filter (fun t => negb (String.eqb (td_ticket_id t) ticket_id))
              (training_data db) ++
       [ {| td_id := id; td_ticket_id := ticket_id; td_summary := summary;
            td_description := description;
            td_is_pixel_related := is_pixel_related;
            td_features := features |} ];
     training_seq := id |}.

(** [UPDATE feedback SET processed = TRUE WHERE id = ?], line 154. *)
Definition set_processed (r : feedback_row) : feedback_row :=
  {| fb_id := fb_id r; fb_ticket_id := fb_ticket_id r;
     fb_summary := fb_summary r; fb_description := fb_description r;
     fb_detection_reason := fb_detection_reason r;
     fb_user_feedback := fb_user_feedback r;
     fb_confidence_score := fb_confidence_score r;
     fb_processed := true |}.

Definition update_processed (db : database) (feedback_id : nat) : database :=
  {| feedback :=
       map (fun r => if Nat.eqb (fb_id r) feedback_id then set_processed r
                     else r) (feedback db);
     feedback_seq := feedback_seq db;
     training_data := training_data db;
     training_seq := training_seq db |}.

(** [SELECT ... FROM feedback WHERE processed = FALSE], lines 132-138. *)
Definition unprocessed (db : database) : list feedback_row :=
  filter (fun r => negb (fb_processed r)) (feedback db).

Section Store.

(** [json.dumps(self.extract_features(summary, description))]. *)
Variable features_json : string -> option string -> string.

(** The body of the loop of [process_feedback_to_training_data],
    lines 140-154. *)
Definition process_row (db : database) (r : feedback_row) : database :=
  let is_pixel_related :=
    user_feedback_eqb (fb_user_feedback r) true_positive in
  let features := features_json (fb_summary r) (fb_description r) in
  let db := insert_or_replace_training db (fb_ticket_id r) (fb_summary r)
              (fb_description r) is_pixel_related features in
  update_processed db (fb_id r).

(** [process_feedback_to_training_data], lines 126-157: the rows
    fetched first, then the loop, then one commit. *)
Definition process_feedback_to_training_data (db : database) : database :=
  fold_left process_row (unprocessed db) db.

(** [record_feedback], lines 107-124. *)
Definition record_feedback (db : database)
    (ticket_id summary : string) (description : option string)
    (detection_reason : string) (label : user_feedback)
    (confidence_score : option Q) : database :=
  process_feedback_to_training_data
    (insert_or_replace_feedback db ticket_id summary description
       detection_reason label confidence_score).

End Store.

(** What the store holds after each kind of committed step.  A pass that
    stops before its [conn.commit()] (line 156) leaves the connection
    unclosed and uncommitted: its statements are rolled back. *)
Inductive event : Type :=
| Insert (ticket_id summary : string) (description : option string)
         (detection_reason : string) (label : user_feedback)
         (confidence_score : option Q)
| Pass
| InterruptedPass (rows_done : nat).

Section Trace.

Variable features_json : string -> option string -> string.

(** The state inside the transaction of a pass after [k] iterations of
    its loop. *)
Definition pass_working_state (k : nat) (db : database) : database :=
  fold_left (process_row features_json) (firstn k (unprocessed db)) db.

(** One step: the committed store and the ids of the feedback rows the
    committed passes have materialized so far, oldest first. *)
Definition run_event (st : database * list nat) (ev : event)
  : database * list nat :=
  let '(db, log) := st in
  match ev with
  | Insert ticket_id summary description detection_reason label confidence =>
      (insert_or_replace_feedback db ticket_id summary description
         detection_reason label confidence, log)
  | Pass =>
      (process_feedback_to_training_data features_json db,
       log ++ map fb_id (unprocessed db))
  | InterruptedPass _ => (db, log)
  end.

Definition run_events (evs : list event) (st : database * list nat)
  : database * list nat :=
  fold_left run_event evs st.

End Trace.

(* ================================================================= *)
(** ** Pattern analyzer *)

(** [collections.Counter]: keys in order of first occurrence. *)
Fixpoint counter_incr (c : list (string * nat)) (token : string)
  : list (string * nat) :=
  match c with
  | [] => [(token, 1)]
  | (k, n) :: c' =>
      if String.eqb k token then (k, S n) :: c'
      else (k, n) :: counter_incr c' token
  end.

Definition Counter (tokens : list string) : list (string * nat) :=
  fold_left counter_incr tokens [].

(** The distinct tokens of a list, in the order of their first
    occurrence. *)
Definition first_occurrences (tokens : list string) : list string :=
  fold_left
    (fun seen t => if existsb (String.eqb t) seen then seen else seen ++ [t])
    tokens [].

(** [cnt c k]: the count [c[k]] of a counter, 0 for a missing key. *)
Definition cnt (c : list (string * nat)) (k : string) : nat :=
  match dict_get c k with
  | Some n => n
  | None => 0
  end.

(** The order of [most_common]: larger counts first. *)
Definition by_count_desc (x y : string * nat) : Prop := snd y <= snd x.

(** [sorted(items, key=count, reverse=True)]: stable, larger counts
    first, equal counts in their original order. *)
Fixpoint insert_desc (x : string * nat) (l : list (string * nat))
  : list (string * nat) :=
  match l with
  | [] => [x]
  | y :: l' => if snd x <? snd y then y :: insert_desc x l' else x :: l
  end.

Definition sorted_desc (items : list (string * nat)) : list (string * nat) :=
  fold_right insert_desc [] items.

(** [Counter.most_common(n)]. *)
Definition most_common (n : nat) (c : list (string * nat))
  : list (string * nat) :=
  firstn n (sorted_desc c).

(** The result of [analyze_patterns]. *)
Record pattern_analysis : Type := {
  false_positive_count : nat;
  false_negative_count : nat;
  common_fp_patterns : list (string * nat);
  common_fn_patterns : list (string * nat);
  suggested_exclusions : list string;
  suggested_keywords : list string
}.

Section Analyzer.

Variable lower : string -> string.
Variable split : string -> list string.

(** [SELECT ... FROM feedback WHERE user_feedback = ?]. *)
Definition select_feedback (label : user_feedback) (db : database)
  : list feedback_row :=
  filter (fun r => user_feedback_eqb (fb_user_feedback r) label)
         (feedback db).

(** The loops of lines 389-399: the tokens of every selected text. *)
Definition patterns (rows : list feedback_row) : list string :=
  flat_map
    (fun r =>
       split (lower (fb_summary r ++ " " ++ or_empty (fb_description r))%string))
    rows.

(** [[pattern for pattern, count in counter.most_common(5) if count >= 2]]. *)
Definition suggest (counter : list (string * nat)) : list string :=
  map fst (filter (fun pc => 2 <=? snd pc) (most_common 5 counter)).

(** [analyze_patterns], lines 366-414. *)
Definition analyze_patterns (db : database) : pattern_analysis :=
  let false_positives := select_feedback false_positive db in
  let false_negatives := select_feedback false_negative db in
  let fp_patterns := patterns false_positives in
  let fn_patterns := patterns false_negatives in
  let fp_counter := Counter fp_patterns in
  let fn_counter := Counter fn_patterns in
  {| false_positive_count := List.length false_positives;
     false_negative_count := List.length false_negatives;
     common_fp_patterns := most_common 10 fp_counter;
     common_fn_patterns := most_common 10 fn_counter;
     suggested_exclusions := suggest fp_counter;
     suggested_keywords := suggest fn_counter |}.

End Analyzer.

(* ================================================================= *)
(** ** Document trees *)

(** A document tree in the tracker's rich-text format: a string, a list
    of nodes, or a node.  A node is a dict that is a container (its
    [content] is a list of nodes, and it has no [text]), a text run (its
    [text] is a string), or neither. *)
Fixpoint well_formed (data : pyval) : bool :=
  match data with
  | PStr _ => true
  | PList elems => forallb well_formed elems
  | PDict items =>
      if has_key "content" items then
        negb (has_key "text" items)
        && (fix content (kvs : list (string * pyval)) : bool :=
              match kvs with
              | [] => true
              | (k, v) :: kvs' =>
                  if String.eqb k "content" then
                    match v with
                    | PList elems => forallb well_formed elems
                    | _ => false
                    end
                  else content kvs'
              end) items
      else if has_key "text" items then
        (fix text (kvs : list (string * pyval)) : bool :=
           match kvs with
           | [] => true
           | (k, v) :: kvs' =>
               if String.eqb k "text" then
                 match v with PStr _ => true | _ => false end
               else text kvs'
           end) items
      else true
  | PNone | PBool _ | PNum _ => false
  end.

(** The textual content of a document tree, in document order: the text
    of every string and every text run, left to right; for a node, the
    texts of its children, then its own text. *)
Fixpoint texts (data : pyval) : list string :=
  match data with
  | PStr s => [s]
  | PList elems => flat_map texts elems
  | PDict items =>
      (fix content (kvs : list (string * pyval)) : list string :=
         match kvs with
         | [] => []
         | (k, v) :: kvs' =>
             if String.eqb k "content" then
               match v with
               | PList elems => flat_map texts elems
               | _ => []
               end
             else content kvs'
         end) items
      ++
      (fix text (kvs : list (string * pyval)) : list string :=
         match kvs with
         | [] => []
         | (k, v) :: kvs' =>
             if String.eqb k "text" then
               match v with PStr s => [s] | _ => [] end
             else text kvs'
         end) items
  | PNone | PBool _ | PNum _ => []
  end.

Fixpoint all_spaces (s : string) : bool :=
  match s with
  | EmptyString => true
  | String c s' => Ascii.eqb c " "%char && all_spaces s'
  end.

(** [weave ts out]: [out] is the strings [ts], in this order, with
    nothing but spaces before, between and after them. *)
Inductive weave : list string -> string -> Prop :=
| weave_nil (pad : string) :
    all_spaces pad = true -> weave [] pad
| weave_cons (pad t : string) (ts : list string) (rest : string) :
    all_spaces pad = true -> weave ts rest ->
    weave (t :: ts) (pad ++ t ++ rest)%string.

(** On a well-formed tree the normalizer returns, and its result is the
    texts of the tree in document order, spaces apart. *)
Definition normalizes (py_str : pyval -> string) (data : pyval) : Prop :=
  well_formed data = true ->
  exists out,
    extract_text_from_rich_format py_str data = Ok out
    /\ weave (texts data) out.

(** The shape of the dict lookups written inline above: the value of
    the first entry under [key] goes to [f]; [d] when there is none. *)
Definition lookup_then {R : Type} (key : string) (f : pyval -> R) (d : R)
  : list (string * pyval) -> R :=
  fix go (kvs : list (string * pyval)) : R :=
    match kvs with
    | [] => d
    | (k, v) :: kvs' => if String.eqb k key then f v else go kvs'
    end.

(* ================================================================= *)
(** ** Consistency of the two stores *)

(** [mark ids r]: row [r] after [UPDATE ... WHERE id = i] for every [i]
    of [ids]. *)
Definition mark (ids : list nat) (r : feedback_row) : feedback_row :=
  if existsb (Nat.eqb (fb_id r)) ids then set_processed r else r.

Definition training_tickets (db : database) : list string :=
  map td_ticket_id (training_data db).

(** No feedback row is half-processed: a row is flagged [processed]
    exactly when a committed pass has materialized it, a flagged row has
    its training example, and every training example comes from a
    flagged row.  [log] holds the ids of the materialized rows, each
    once. *)
Record consistent (db : database) (log : list nat) : Prop := {
  ids_unique : NoDup (map fb_id (feedback db));
  ids_bounded : forall r, In r (feedback db) -> fb_id r <= feedback_seq db;
  log_once : NoDup log;
  log_bounded : forall id, In id log -> id <= feedback_seq db;
  flag_iff_logged :
    forall r, In r (feedback db) ->
      (fb_processed r = true <-> In (fb_id r) log);
  flagged_has_example :
    forall r, In r (feedback db) -> fb_processed r = true ->
      In (fb_ticket_id r) (training_tickets db);
  example_has_flagged :
    forall ticket, In ticket (training_tickets db) ->
      exists r, In r (feedback db)
                /\ fb_ticket_id r = ticket /\ fb_processed r = true
}.

(* ================================================================= *)
(** ** The text the rule engine reads *)

(** The body text of a ticket and the combined lowercased text of
    [is_pixel_related_ticket], line 129, for a title that is a string. *)
Definition body_text (py_str : pyval -> string) (description : pyval)
  : string :=
  match desc_text py_str description with
  | Ok desc => desc
  | Raise _ => ""
  end.

Definition ticket_text (lower : string -> string) (py_str : pyval -> string)
    (summary : string) (description : pyval) : string :=
  lower (summary ++ " " ++ body_text py_str description)%string.

(** Every pair of verdict and reason code the rule engine has a
    [return] for. *)
Definition rule_outcomes : list (bool * string) :=
  [ (false, "no_summary") ]
  ++ map (fun e => (false, ("excluded:" ++ e)%string)) exclusions
  ++ map (fun k => (true, ("high:" ++ k)%string)) high_confidence_keywords
  ++ map (fun c => (true, ("pixel_context:" ++ c)%string)) pixel_contexts
  ++ [ (true, "medium:tracking_action");
       (true, "medium:conversion_web");
       (false, "no_match") ].

(* ================================================================= *)
(** ** Feature extractor *)

(** [sum(1 for w in words if w in text)]. *)
Definition count_in (words : list string) (text : string) : nat :=
  List.length (filter (fun w => str_in w text) words).

(** [count_pixel_contexts], lines 196-201. *)
Definition count_pixel_contexts (text : string) : nat :=
  let contexts := [ "firing"; "load"; "implement"; "setup"; "troubleshoot";
                    "validate"; "test" ] in
  if str_in "pixel" text then count_in contexts text else 0.

(** [count_technical_terms], lines 203-206. *)
Definition count_technical_terms (text : string) : nat :=
  count_in [ "javascript"; "js"; "tag"; "code"; "snippet"; "implementation";
             "gtm" ] text.

(** [count_exclusion_indicators], lines 208-211. *)
Definition count_exclusion_indicators (text : string) : nat :=
  count_in [ "acr"; "delivery report"; "access request"; "user sync";
             "planning module"; "linear ads" ] text.

(** [count_action_words], lines 213-216. *)
Definition count_action_words (text : string) : nat :=
  count_in [ "implement"; "install"; "setup"; "add"; "place"; "deploy";
             "configure" ] text.

(** The dictionary built by [extract_features]. *)
Module Feature.
Record t : Type := {
  length : nat;
  word_count : nat;
  has_pixel : bool;
  has_tracking : bool;
  has_conversion : bool;
  has_validation : bool;
  has_firing : bool;
  pixel_with_context : nat;
  technical_terms : nat;
  has_exclusions : nat;
  action_words : nat;
  dsp_related : bool;
  web_related : bool;
  campaign_related : bool
}.
End Feature.

Section FeatureExtractor.

Variable lower : string -> string.
Variable split : string -> list string.

(** [extract_features], lines 162-194; [len(text)] is the number of
    characters of the text. *)
Definition extract_features (summary : string) (description : option string)
  : Feature.t :=
  let text := lower (summary ++ " " ++ or_empty description)%string in
  {| Feature.length := String.length text;
     Feature.word_count := List.length (split text);
     Feature.has_pixel := str_in "pixel" text;
     Feature.has_tracking :=
       any_in [ "tracking"; "tag"; "javascript"; "js" ] text;
     Feature.has_conversion := str_in "conversion" text;
     Feature.has_validation := str_in "validation" text;
     Feature.has_firing := str_in "firing" text;
     Feature.pixel_with_context := count_pixel_contexts text;
     Feature.technical_terms := count_technical_terms text;
     Feature.has_exclusions := count_exclusion_indicators text;
     Feature.action_words := count_action_words text;
     Feature.dsp_related := str_in "dsp" text || str_in "creative" text;
     Feature.web_related := any_in [ "web"; "website"; "page" ] text;
     Feature.campaign_related := str_in "campaign" text |}.

End FeatureExtractor.

(* ================================================================= *)
(** ** Enhanced monitor *)

(** A ticket as [process_ticket_with_learning] reads it:
    [ticket.get('key', 'UNKNOWN')] and the [summary] and [description]
    of its fields. *)
Record ticket : Type := {
  tk_key : string;
  tk_summary : option string;
  tk_description : pyval
}.

(** What one run of [check_for_enhanced_pixel_tickets] leaves: the keys
    of the tickets it raised an alert for, in order, the counter
    [pixel_tickets_found], and whether it ended in its [except]
    handler. *)
Record check_result : Type := {
  alerts : list string;
  pixel_tickets_found : nat;
  failed : bool
}.

(** A title or body the string concatenations of [hybrid_detection]
    cannot take: a title that is [None], or a truthy body that is not a
    string, such as a rich-text document. *)
Definition unfit (summary : option string) (description : pyval) : Prop :=
  summary = None
  \/ (truthy description = true /\ forall s, description <> PStr s).

Section Enhanced.

Variable lower : string -> string.
Variable split : string -> list string.
Variable py_str : pyval -> string.
Variables Model Vectorizer Vec : Type.
Variable transform : Vectorizer -> string -> Vec.
Variable predict : Model -> Vec -> bool.
Variable predict_proba : Model -> Vec -> Q * Q.

(** [hybrid_detection] on the values its caller passes: the title is a
    string or [None], the body is any value.  [summary + " " + ...]
    raises [TypeError] on a title that is [None], in [predict_ml] or in
    [extract_features]; [description or ""] is the empty string for a
    falsy body, and concatenating a truthy body that is not a string
    raises [TypeError]. *)
Definition hybrid_detection_py (self : learning_system Model Vectorizer)
    (summary : option string) (description : pyval)
    (rule_based_result : bool) (rule_confidence : Q)
  : result (bool * Q * analysis Feature.t) :=
  match summary with
  | None => Raise TypeError
  | Some summary =>
      let run (description : option string) :=
        hybrid_detection lower transform predict predict_proba
          (extract_features lower split) self summary description
          rule_based_result rule_confidence in
      match description with
      | PStr d => Ok (run (Some d))
      | _ => if truthy description then Raise TypeError else Ok (run None)
      end
  end.

(** [enhanced_is_pixel_related_ticket], lines 22-46 of
    [enhanced_pixel_monitor.py]. *)
Definition enhanced_is_pixel_related_ticket
    (self : learning_system Model Vectorizer)
    (summary : option string) (description : pyval)
  : result (bool * string * Q * analysis Feature.t) :=
  rule <- is_pixel_related_ticket lower py_str summary description ;;
  let '(rule_result, rule_reason) := rule in
  let rule_confidence := estimate_rule_confidence rule_reason in
  hybrid <- hybrid_detection_py self summary description rule_result
              rule_confidence ;;
  let '(final_result, combined_confidence, analysis) := hybrid in
  Ok (final_result, rule_reason, combined_confidence, analysis).

(** [process_ticket_with_learning], lines 75-99, as the [monitor]
    command runs it ([interactive_mode] is [False]): its result. *)
Definition process_ticket_with_learning
    (self : learning_system Model Vectorizer) (t : ticket)
  : result (bool * Q) :=
  r <- enhanced_is_pixel_related_ticket self (tk_summary t)
         (tk_description t) ;;
  let '(is_pixel, reason, confidence, analysis) := r in
  Ok (is_pixel, confidence).

(** The loop of [check_for_enhanced_pixel_tickets], lines 228-249, over
    the tickets the search returned: the whole loop is inside one
    [try], so the first exception ends it. *)
Fixpoint check_loop (self : learning_system Model Vectorizer)
    (tickets : list ticket) (alerted : list string) (found : nat)
  : check_result :=
  match tickets with
  | [] => {| alerts := alerted; pixel_tickets_found := found;
             failed := false |}
  | t :: rest =>
      match process_ticket_with_learning self t with
      | Raise _ => {| alerts := alerted; pixel_tickets_found := found;
                      failed := true |}
      | Ok (is_pixel, _) =>
          if is_pixel
          then check_loop self rest (alerted ++ [tk_key t]) (S found)
          else check_loop self rest alerted found
      end
  end.

Definition check_for_enhanced_pixel_tickets
    (self : learning_system Model Vectorizer) (tickets : list ticket)
  : check_result :=
  check_loop self tickets [] 0.

End Enhanced.

Arguments hybrid_detection_py lower split {Model Vectorizer Vec} transform
  predict predict_proba self summary description rule_based_result
  rule_confidence.
Arguments enhanced_is_pixel_related_ticket lower split py_str
  {Model Vectorizer Vec} transform predict predict_proba self summary
  description.
Arguments process_ticket_with_learning lower split py_str
  {Model Vectorizer Vec} transform predict predict_proba self t.
Arguments check_loop lower split py_str {Model Vectorizer Vec} transform
  predict predict_proba self tickets alerted found.
Arguments check_for_enhanced_pixel_tickets lower split py_str
  {Model Vectorizer Vec} transform predict predict_proba self tickets.

(* ================================================================= *)
(** ** Performance metrics *)

(** [COUNT(CASE WHEN user_feedback = ? THEN 1 END)] over [feedback]. *)
Definition count_feedback (label : user_feedback) (db : database) : nat :=
  List.length
    (filter (fun r => user_feedback_eqb (fb_user_feedback r) label)
            (feedback db)).

(** [a / b] on two counts. *)
Definition ratio (a b : nat) : Q :=
  (inject_Z (Z.of_nat a) / inject_Z (Z.of_nat b))%Q.

Module Metrics.
Record feedback_based : Type := {
  true_positives : nat;
  false_positives : nat;
  false_negatives : nat;
  precision : Q;
  recall : Q;
  f1_score : Q
}.
Record model_based : Type := {
  model_precision : option Q;
  model_recall : option Q;
  model_f1_score : option Q;
  training_samples : nat
}.
Record t : Type := {
  by_feedback : feedback_based;
  by_model : model_based;
  total_feedback : nat
}.
End Metrics.

(** [get_performance_metrics], lines 416-466.  [model_metrics] is the
    row the second query fetches from [model_performance]: precision,
    recall, f1 and the number of training samples of the latest model,
    or [None] when no model was trained. *)
Definition get_performance_metrics (db : database)
    (model_metrics : option (Q * Q * Q * nat)) : Metrics.t :=
  let tp := count_feedback true_positive db in
  let fp := count_feedback false_positive db in
  let fn := count_feedback false_negative db in
  let precision := if 0 <? tp + fp then ratio tp (tp + fp) else 0%Q in
  let recall := if 0 <? tp + fn then ratio tp (tp + fn) else 0%Q in
  let f1_score :=
    if Qgtb (precision + recall) 0
    then (2 * (precision * recall) / (precision + recall))%Q
    else 0%Q in
  {| Metrics.by_feedback :=
       {| Metrics.true_positives := tp;
          Metrics.false_positives := fp;
          Metrics.false_negatives := fn;
          Metrics.precision := precision;
          Metrics.recall := recall;
          Metrics.f1_score := f1_score |};
     Metrics.by_model :=
       match model_metrics with
       | Some (p, r, f, n) =>
           {| Metrics.model_precision := Some p;
              Metrics.model_recall := Some r;
              Metrics.model_f1_score := Some f;
              Metrics.training_samples := n |}
       | None =>
           {| Metrics.model_precision := None;
              Metrics.model_recall := None;
              Metrics.model_f1_score := None;
              Metrics.training_samples := 0 |}
       end;
     Metrics.total_feedback := tp + fp + fn |}.

(* ================================================================= *)
(** ** Training *)

Section Training.

Variable lower : string -> string.

(** The split, the fit, the evaluation and the saving of
    [train_ml_model], lines 240-281 (scikit-learn and the file
    system), on the prepared texts and labels. *)
Variable Trained : Type.
Variable fit_and_save : list string -> list bool -> Trained.

(** [train_ml_model], lines 218-281: [None] is [return False] at line
    229, before anything is fitted or written. *)
Definition train_ml_model (db : database) (min_samples : nat)
  : option Trained :=
  let data := training_data db in
  if List.length data <? min_samples then None
  else
    let texts :=
      map (fun t => lower (td_summary t ++ " "
                           ++ or_empty (td_description t))%string) data in
    let labels := map td_is_pixel_related data in
    Some (fit_and_save texts labels).

End Training.

Arguments train_ml_model lower {Trained} fit_and_save db min_samples.

(** The distinct ticket ids of the processed feedback rows. *)
Definition processed_tickets (db : database) : list string :=
  nodup string_dec
    (map fb_ticket_id (filter fb_processed (feedback db))).

(* ================================================================= *)
(** ** The recursion limit *)

(** The deepest of the items of a list, by [depth]. *)
Definition deepest_of (depth : pyval -> nat) (items : list pyval) : nat :=
  fold_right (fun item deepest => Nat.max (depth item) deepest) 0 items.

(** The number of nested calls [extract_text_from_rich_format] makes on
    a value: one for the value itself, and as many more as the deepest
    of the items it descends into needs. *)
Fixpoint frames_needed (data : pyval) : nat :=
  match data with
  | PList elems => S (deepest_of frames_needed elems)
  | PDict items =>
      S ((fix content (kvs : list (string * pyval)) : nat :=
            match kvs with
            | [] => 0
            | (k, v) :: kvs' =>
                if String.eqb k "content" then
                  match v with
                  | PList elems => deepest_of frames_needed elems
                  | PDict sub => match sub with [] => 0 | _ :: _ => 1 end
                  | PStr s => match s with EmptyString => 0 | _ => 1 end
                  | PNone | PBool _ | PNum _ => 0
                  end
                else content kvs'
            end) items)
  | PStr _ | PNone | PBool _ | PNum _ => 1
  end.

(** The normalizer and the rule engine under Python's recursion limit.
    [frames] is the number of nested calls the interpreter still allows
    at the point of a call: a call of [extract_text_from_rich_format]
    made with none left raises [RecursionError], and each call leaves
    one less to the calls it makes. *)
Module Limited.

(** [for item in items: text_parts.append(extract(item))]. *)
Definition each_of (extract : pyval -> result string)
  : list pyval -> result (list string) :=
  fix each (items : list pyval) : result (list string) :=
    match items with
    | [] => Ok []
    | item :: rest =>
        t <- extract item ;;
        ts <- each rest ;;
        Ok (t :: ts)
    end.

Section WithBuiltins.

(** [str(x)] and [logger.debug(...)], called where [frames] nested
    calls are left: either may raise, [str] for one on a value nested
    deeper than it can print. *)
Variable py_str : nat -> pyval -> result string.
Variable log_debug : nat -> result unit.

(** [extract_text_from_rich_format], lines 55-73. *)
Fixpoint extract_text_from_rich_format (frames : nat) (data : pyval)
  {struct frames} : result string :=
  match frames with
  | 0 => Raise RecursionError
  | S frames' =>
      let each := each_of (extract_text_from_rich_format frames') in
      match data with
      | PStr s => Ok s
      | PDict items =>
          if has_key "content" items then
            lookup_then "content"
              (fun v =>
                 match v with
                 | PList elems =>
                     text_parts <- each elems ;; Ok (join " " text_parts)
                 | PDict sub =>
                     text_parts <- each (map (fun kv => PStr (fst kv)) sub) ;;
                     Ok (join " " text_parts)
                 | PStr s =>
                     text_parts <- each (map PStr (chars s)) ;;
                     Ok (join " " text_parts)
                 | PNone | PBool _ | PNum _ => Raise TypeError
                 end) (Ok (join " " [])) items
          else if has_key "text" items then
            lookup_then "text"
              (fun v =>
                 match v with
                 | PStr s => Ok (join " " [s])
                 | _ => Raise TypeError
                 end) (Ok (join " " [])) items
          else Ok (join " " [])
      | PList elems =>
          text_parts <- each elems ;; Ok (join " " text_parts)
      | PNone | PBool _ | PNum _ => py_str frames' data
      end
  end.

(** The loop over the items, on its own. *)
Definition each_text (frames : nat) : list pyval -> result (list string) :=
  each_of (extract_text_from_rich_format frames).

(** The [desc_text] local of [is_pixel_related_ticket], lines 114-126:
    [except Exception] catches [TypeError] and [RecursionError] alike;
    what [logger.debug] or [str(description)] raises in the handler is
    not caught. *)
Definition desc_text (frames : nat) (description : pyval) : result string :=
  if truthy description then
    try_except
      (match description with
       | PDict _ => extract_text_from_rich_format frames description
       | PStr s => Ok s
       | _ => py_str frames description
       end)
      (fun _ =>
         _ <- log_debug frames ;;
         if truthy description then py_str frames description else Ok "")
  else Ok "".

(** [is_pixel_related_ticket], lines 101-198. *)
Definition is_pixel_related_ticket (lower : string -> string)
    (frames : nat) (summary : option string) (description : pyval)
  : result (bool * string) :=
  match summary with
  | None => Ok (false, "no_summary")
  | Some summary =>
      if String.eqb summary "" then Ok (false, "no_summary")
      else
        desc <- desc_text frames description ;;
        let text := lower (summary ++ " " ++ desc)%string in
        Ok (classify_text text)
  end.

End WithBuiltins.

End Limited.

(* ================================================================= *)
(** * Properties *)

(** ** Lists of words *)

Lemma first_in_split (words : list string) (text w : string) :
  first_in words text = Some w ->
  exists before after,
    words = before ++ w :: after
    /\ str_in w text = true
    /\ Forall (fun e => str_in e text = false) before.
Proof.
  unfold first_in.
  induction words as [|x words IH]; simpl; [discriminate|].
  destruct (str_in x text) eqn:Hx.
  - intros [= <-]. exists [], words. auto.
  - intros Hfind. destruct (IH Hfind) as (before & after & -> & Hw & Hall).
    exists (x :: before), after. auto.
Qed.

Lemma first_in_hit (words : list string) (text term : string) :
  In term words -> str_in term text = true ->
  exists w, first_in words text = Some w.
Proof.
  unfold first_in. intros Hin Hterm.
  destruct (find (fun w => str_in w text) words) as [w|] eqn:Hfind.
  - eauto.
  - apply (find_none _ _ Hfind) in Hin. simpl in Hin. congruence.
Qed.

(** ** Text normalizer *)

Section NormalizerFacts.

Variable py_str : pyval -> string.

Lemma desc_text_total (description : pyval) :
  exists out, desc_text py_str description = Ok out.
Proof.
  unfold desc_text, try_except.
  destruct (truthy description); [|eauto].
  destruct description; eauto.
  destruct (extract_text_from_rich_format py_str (PDict items)); eauto.
Qed.

Lemma desc_text_falsy (description : pyval) :
  truthy description = false -> desc_text py_str description = Ok "".
Proof.
  unfold desc_text. intros ->. reflexivity.
Qed.

End NormalizerFacts.

(** ** Rule engine *)

Section RuleEngineFacts.

Variable lower : string -> string.
Variable py_str : pyval -> string.

(** C2.  Exclusions take precedence.  For a non-empty title and any
    body, when the combined lowercased text contains a term of the
    exclusion list, the rule engine returns [False] with reason
    [excluded:<term>] for the first term of the list that occurs in the
    text, whatever else the text contains. *)
Theorem exclusions_take_precedence
    (summary : string) (description : pyval) (desc term : string) :
  summary <> "" ->
  desc_text py_str description = Ok desc ->
  In term exclusions ->
  str_in term (lower (summary ++ " " ++ desc)%string) = true ->
  exists exclusion before after,
    exclusions = before ++ exclusion :: after
    /\ str_in exclusion (lower (summary ++ " " ++ desc)%string) = true
    /\ Forall (fun e => str_in e (lower (summary ++ " " ++ desc)%string) = false)
              before
    /\ is_pixel_related_ticket lower py_str (Some summary) description
       = Ok (false, ("excluded:" ++ exclusion)%string).
Proof.
  intros Hne Hdesc Hin Hterm.
  destruct (first_in_hit _ _ _ Hin Hterm) as [exclusion Hfirst].
  destruct (first_in_split _ _ _ Hfirst) as (before & after & Hsplit & Hhit & Hall).
  exists exclusion, before, after.
  repeat split; auto.
  unfold is_pixel_related_ticket.
  destruct (String.eqb_spec summary ""); [contradiction|].
  rewrite Hdesc. cbn [bind]. unfold classify_text. rewrite Hfirst. reflexivity.
Qed.

(** C10.  A falsy title ([None] or the empty string) gives
    [(False, 'no_summary')] for every body: the body is not read. *)
Theorem empty_summary_no_summary (description : pyval) :
  is_pixel_related_ticket lower py_str None description
    = Ok (false, "no_summary")
  /\ is_pixel_related_ticket lower py_str (Some "") description
    = Ok (false, "no_summary").
Proof.
  split; reflexivity.
Qed.

End RuleEngineFacts.

Lemma exclusions_take_precedence_witness :
  exists exclusion before after,
    exclusions = before ++ exclusion :: after
    /\ str_in exclusion
         (ascii_lower ("Tracking pixel for User Sync" ++ " " ++ "conversion pixel")%string)
       = true
    /\ Forall (fun e =>
         str_in e
           (ascii_lower ("Tracking pixel for User Sync" ++ " " ++ "conversion pixel")%string)
         = false) before
    /\ is_pixel_related_ticket ascii_lower (fun _ => "")
         (Some "Tracking pixel for User Sync") (PStr "conversion pixel")
       = Ok (false, ("excluded:" ++ exclusion)%string).
Proof.
  apply (exclusions_take_precedence ascii_lower (fun _ => "")
           "Tracking pixel for User Sync" (PStr "conversion pixel")
           "conversion pixel" "user sync").
  - discriminate.
  - reflexivity.
  - simpl. tauto.
  - vm_compute. reflexivity.
Defined.

(** ** Rule confidence table *)

(** C1.  The reason code of a high-confidence phrase match is not a key
    of the confidence table: the ticket of the first scenario is
    classified [high:conversion pixel], and the table, whose key is
    [high:conversion_pixel], answers the default 0.5.  The same holds
    for every phrase of the high-confidence list. *)
Theorem high_reason_codes_unrecognized (py_str : pyval -> string) :
  is_pixel_related_ticket ascii_lower py_str
    (Some "Conversion pixel troubleshooting - 0 conversions showing")
    (PStr "")
  = Ok (true, "high:conversion pixel")
  /\ dict_get confidence_map "high:conversion pixel" = None
  /\ estimate_rule_confidence "high:conversion pixel" = 0.5%Q
  /\ Forall (fun keyword =>
       dict_get confidence_map ("high:" ++ keyword)%string = None)
       high_confidence_keywords.
Proof.
  repeat split; try reflexivity.
  repeat constructor.
Qed.

(** The two combination codes and four of the fifteen context codes are
    keys of the table. *)
Lemma medium_reason_codes_recognized :
  estimate_rule_confidence "medium:tracking_action" = 0.60%Q
  /\ estimate_rule_confidence "medium:conversion_web" = 0.70%Q.
Proof.
  split; reflexivity.
Qed.

Lemma context_reason_codes_recognized :
  filter (fun context =>
            match dict_get confidence_map ("pixel_context:" ++ context)%string
            with Some _ => true | None => false end)
         pixel_contexts
  = [ "conversion"; "firing"; "validation"; "setup" ].
Proof.
  reflexivity.
Qed.

(** ** Fusion policy *)

Lemma Qgtb_true (a b : Q) : Qgtb a b = true <-> (b < a)%Q.
Proof.
  unfold Qgtb. rewrite negb_true_iff.
  split.
  - intros H. apply Qnot_le_lt. intros Hle.
    apply Qle_bool_iff in Hle. congruence.
  - intros H. destruct (Qle_bool a b) eqn:E; [|reflexivity].
    apply Qle_bool_iff in E. exfalso. apply (Qlt_not_le _ _ H E).
Qed.

Lemma Qgtb_false (a b : Q) : Qgtb a b = false <-> (a <= b)%Q.
Proof.
  unfold Qgtb. rewrite negb_false_iff. apply Qle_bool_iff.
Qed.

Section FusionFacts.

Variable lower : string -> string.
Variables Model Vectorizer Vec : Type.
Variable transform : Vectorizer -> string -> Vec.
Variable predict : Model -> Vec -> bool.
Variable predict_proba : Model -> Vec -> Q * Q.
Variable Features : Type.
Variable extract_features : string -> option string -> Features.

Let predict_ml' := predict_ml lower transform predict predict_proba.
Let hybrid_detection' :=
  hybrid_detection lower transform predict predict_proba extract_features.

(** C3.  With a model loaded and both confidences in [0,1], the combined
    confidence is [rule*0.6 + ml*0.4] when [ml <= 0.8] and
    [rule*0.4 + ml*0.6] when [ml > 0.8]; the final verdict is [True]
    exactly when the combined confidence exceeds 0.5; the combined
    confidence lies in [0,1]; the method is [hybrid]. *)
Theorem hybrid_weighted_average
    (self : learning_system Model Vectorizer) (m : Model)
    (summary : string) (description : option string)
    (rule_based_result : bool) (rule_confidence : Q) :
  model self = Some m ->
  (0 <= rule_confidence <= 1)%Q ->
  (0 <= snd (predict_ml' self summary description) <= 1)%Q ->
  let ml_confidence := snd (predict_ml' self summary description) in
  let r := hybrid_detection' self summary description
             rule_based_result rule_confidence in
  let final_verdict := fst (fst r) in
  let combined := snd (fst r) in
  ((ml_confidence <= 0.8)%Q ->
     combined = (rule_confidence * 0.6 + ml_confidence * 0.4)%Q)
  /\ ((0.8 < ml_confidence)%Q ->
     combined = (rule_confidence * 0.4 + ml_confidence * 0.6)%Q)
  /\ (final_verdict = true <-> (0.5 < combined)%Q)
  /\ (0 <= combined <= 1)%Q
  /\ combined_score (snd r) = combined
  /\ method (snd r) = "hybrid".
Proof.
  intros Hmodel Hrule Hml ml_confidence r final_verdict combined.
  subst final_verdict combined r ml_confidence.
  unfold hybrid_detection', hybrid_detection.
  fold predict_ml'.
  destruct (predict_ml' self summary description) as [ml_prediction ml_confidence].
  simpl in Hml. rewrite Hmodel.
  destruct (Qgtb ml_confidence 0.8) eqn:Hgt; cbn -[Qmult Qplus Qle Qlt].
  - apply Qgtb_true in Hgt.
    repeat split; try reflexivity; try (apply Qgtb_true); lra.
  - apply Qgtb_false in Hgt.
    repeat split; try reflexivity; try (apply Qgtb_true); lra.
Qed.


End FusionFacts.

Lemma hybrid_weighted_average_witness :
  let self := {| model := Some tt; vectorizer := Some tt |} in
  let r := hybrid_detection ascii_lower (fun (_ : unit) text => text)
             (fun (_ : unit) (_ : string) => true)
             (fun (_ : unit) (_ : string) => (0.1%Q, 0.9%Q))
             (fun _ _ => tt)
             self "Conversion pixel troubleshooting" None true 0.5%Q in
  fst (fst r) = true <-> (0.5 < snd (fst r))%Q.
Proof.
  intros self r.
  refine (proj1 (proj2 (proj2
    (hybrid_weighted_average ascii_lower unit unit string
       (fun _ text => text) (fun _ _ => true) (fun _ _ => (0.1%Q, 0.9%Q))
       unit (fun _ _ => tt) self tt
       "Conversion pixel troubleshooting" None true 0.5%Q
       eq_refl _ _)))).
  - split; vm_compute; discriminate.
  - split; vm_compute; discriminate.
Defined.

(** ** Feedback store and training store *)

Lemma filter_none {A : Type} (f : A -> bool) (l : list A) :
  (forall x, In x l -> f x = false) -> filter f l = [].
Proof.
  induction l as [|x l IH]; simpl; intros H; [reflexivity|].
  rewrite (H x (or_introl eq_refl)). apply IH. intros y Hy. apply H. now right.
Qed.

Lemma NoDup_map_filter {Row Key : Type} (key : Row -> Key)
    (keep : Row -> bool) (rows : list Row)
    (Hkeys : NoDup (map key rows)) :
  NoDup (map key (filter keep rows)).
Proof.
  induction rows as [|r rows IH]; simpl in *; [constructor|].
  apply NoDup_cons_iff in Hkeys. destruct Hkeys as [Hfresh Hkeys].
  destruct (keep r); simpl; [constructor|]; auto.
  intros Hin. apply Hfresh.
  apply in_map_iff in Hin. destruct Hin as (r' & Hr' & Hin).
  apply filter_In in Hin. apply in_map_iff. exists r'. tauto.
Qed.

Lemma mark_id (ids : list nat) (r : feedback_row) :
  fb_id (mark ids r) = fb_id r.
Proof. unfold mark. destruct (existsb _ ids); reflexivity. Qed.

Lemma mark_ticket (ids : list nat) (r : feedback_row) :
  fb_ticket_id (mark ids r) = fb_ticket_id r.
Proof. unfold mark. destruct (existsb _ ids); reflexivity. Qed.

Lemma mark_processed (ids : list nat) (r : feedback_row) :
  fb_processed (mark ids r) = fb_processed r || existsb (Nat.eqb (fb_id r)) ids.
Proof.
  unfold mark. destruct (existsb _ ids); simpl.
  - now rewrite orb_true_r.
  - now rewrite orb_false_r.
Qed.

Lemma existsb_eqb_In (n : nat) (ids : list nat) :
  existsb (Nat.eqb n) ids = true <-> In n ids.
Proof.
  rewrite existsb_exists. split.
  - intros (x & Hx & E). apply Nat.eqb_eq in E. now subst.
  - intros H. exists n. split; [assumption|apply Nat.eqb_refl].
Qed.

Lemma unprocessed_insert (db : database)
    (ticket_id summary : string) (description : option string)
    (detection_reason : string) (label : user_feedback)
    (confidence_score : option Q) :
  unprocessed (insert_or_replace_feedback db ticket_id summary description
                 detection_reason label confidence_score)
  = unprocessed db ++
    [ {| fb_id := S (feedback_seq db); fb_ticket_id := ticket_id;
         fb_summary := summary; fb_description := description;
         fb_detection_reason := detection_reason;
         fb_user_feedback := label;
         fb_confidence_score := confidence_score;
         fb_processed := false |} ].
Proof.
  unfold unprocessed, insert_or_replace_feedback. simpl.
  now rewrite filter_app.
Qed.

Section StoreFacts.

Variable features_json : string -> option string -> string.

Let process_row' := process_row features_json.
Let process' := process_feedback_to_training_data features_json.
Let record' := record_feedback features_json.

Lemma process_rows_feedback (rows : list feedback_row) (db : database) :
  feedback (fold_left process_row' rows db)
  = map (mark (map fb_id rows)) (feedback db).
Proof.
  revert db. induction rows as [|r rows IH]; intros db; simpl.
  - symmetry. erewrite map_ext; [apply map_id|]. reflexivity.
  - rewrite IH. unfold process_row', process_row, update_processed. simpl.
    rewrite map_map. apply map_ext. intros x.
    unfold mark at 2. simpl.
    destruct (Nat.eqb (fb_id x) (fb_id r)) eqn:E; simpl.
    + unfold mark. simpl. destruct (existsb _ (map fb_id rows)); reflexivity.
    + reflexivity.
Qed.

Lemma process_rows_feedback_seq (rows : list feedback_row) (db : database) :
  feedback_seq (fold_left process_row' rows db) = feedback_seq db.
Proof.
  revert db. induction rows as [|r rows IH]; intros db; simpl; [reflexivity|].
  now rewrite IH.
Qed.

Lemma process_row_tickets (db : database) (r : feedback_row) (ticket : string) :
  In ticket (training_tickets (process_row' db r))
  <-> ticket = fb_ticket_id r \/ In ticket (training_tickets db).
Proof.
  unfold training_tickets, process_row', process_row, update_processed,
    insert_or_replace_training. simpl.
  rewrite map_app, in_app_iff. simpl.
  rewrite !in_map_iff. split.
  - intros [(t & Ht & Hin) | [H | []]]; [right | left; congruence].
    apply filter_In in Hin. exists t. tauto.
  - intros [H | (t & Ht & Hin)]; [right; left; congruence|].
    destruct (String.eqb_spec (td_ticket_id t) (fb_ticket_id r)) as [E | E].
    + right. left. congruence.
    + left. exists t. split; [assumption|]. apply filter_In. split; [assumption|].
      apply negb_true_iff. now apply String.eqb_neq.
Qed.

Lemma process_rows_tickets (rows : list feedback_row) (db : database)
    (ticket : string) :
  In ticket (training_tickets (fold_left process_row' rows db))
  <-> In ticket (map fb_ticket_id rows) \/ In ticket (training_tickets db).
Proof.
  revert db. induction rows as [|r rows IH]; intros db; simpl; [tauto|].
  rewrite IH, process_row_tickets. intuition congruence.
Qed.

(** After a pass no row is left unprocessed, and a second pass changes
    nothing. *)
Lemma unprocessed_after_pass (db : database) :
  unprocessed (process' db) = [].
Proof.
  unfold process', process_feedback_to_training_data, unprocessed at 1.
  fold process_row'. rewrite process_rows_feedback.
  apply filter_none. intros x Hx.
  apply in_map_iff in Hx. destruct Hx as (r & <- & Hr).
  rewrite mark_processed, negb_false_iff.
  destruct (fb_processed r) eqn:E; [reflexivity|]. simpl.
  apply existsb_eqb_In, in_map. unfold unprocessed.
  apply filter_In. now rewrite E.
Qed.

Lemma pass_idempotent (db : database) :
  process' (process' db) = process' db.
Proof.
  unfold process' at 1, process_feedback_to_training_data.
  fold process'. now rewrite unprocessed_after_pass.
Qed.

Lemma record_feedback_unfold (db : database)
    (ticket_id summary : string) (description : option string)
    (detection_reason : string) (label : user_feedback)
    (confidence_score : option Q) :
  let db0 := insert_or_replace_feedback db ticket_id summary description
               detection_reason label confidence_score in
  let r := {| fb_id := S (feedback_seq db); fb_ticket_id := ticket_id;
              fb_summary := summary; fb_description := description;
              fb_detection_reason := detection_reason;
              fb_user_feedback := label;
              fb_confidence_score := confidence_score;
              fb_processed := false |} in
  record' db ticket_id summary description detection_reason label
    confidence_score
  = process_row' (fold_left process_row' (unprocessed db) db0) r.
Proof.
  intros db0 r. unfold record', record_feedback,
    process_feedback_to_training_data.
  rewrite unprocessed_insert, fold_left_app. reflexivity.
Qed.

Lemma filter_filter_negb {A : Type} (f : A -> bool) (l : list A) :
  filter f (filter (fun x => negb (f x)) l) = [].
Proof.
  apply filter_none. intros x Hx. apply filter_In in Hx.
  destruct Hx as [_ Hx]. now apply negb_true_iff in Hx.
Qed.

(** The training rows of a ticket right after a feedback on it was
    recorded: exactly one, from that feedback. *)
Lemma record_feedback_training (db : database)
    (ticket_id summary : string) (description : option string)
    (detection_reason : string) (label : user_feedback)
    (confidence_score : option Q) :
  exists id,
    filter (fun t => String.eqb (td_ticket_id t) ticket_id)
      (training_data
         (record' db ticket_id summary description detection_reason label
            confidence_score))
    = [ {| td_id := id; td_ticket_id := ticket_id; td_summary := summary;
           td_description := description;
           td_is_pixel_related := user_feedback_eqb label true_positive;
           td_features := features_json summary description |} ].
Proof.
  rewrite record_feedback_unfold.
  unfold process_row', process_row, update_processed,
    insert_or_replace_training. simpl.
  eexists. rewrite filter_app, filter_filter_negb. simpl.
  rewrite String.eqb_refl. reflexivity.
Qed.

End StoreFacts.

Section StoreClaims.

Variable features_json : string -> option string -> string.

Let process' := process_feedback_to_training_data features_json.
Let record' := record_feedback features_json.

(** C5.  After two feedbacks on one ticket_id, the training store holds
    exactly one row for that ticket_id; it carries the second feedback:
    its label is [True] exactly when that feedback was [true_positive].
    A further materialization pass changes nothing.  This holds from any
    store, and whether or not the two labels differ. *)
Theorem latest_feedback_wins_training (db : database) (ticket_id : string)
    (summary1 summary2 : string) (description1 description2 : option string)
    (reason1 reason2 : string) (label1 label2 : user_feedback)
    (confidence1 confidence2 : option Q) :
  let db1 := record' db ticket_id summary1 description1 reason1 label1
               confidence1 in
  let db2 := record' db1 ticket_id summary2 description2 reason2 label2
               confidence2 in
  exists t,
    filter (fun t => String.eqb (td_ticket_id t) ticket_id) (training_data db2)
      = [t]
    /\ (td_is_pixel_related t = true <-> label2 = true_positive)
    /\ td_summary t = summary2
    /\ td_description t = description2
    /\ process' db2 = db2.
Proof.
  intros db1 db2.
  destruct (record_feedback_training features_json db1 ticket_id summary2
              description2 reason2 label2 confidence2) as [id Hrows].
  eexists. split; [exact Hrows|]. simpl.
  repeat split.
  - destruct label2; simpl; congruence.
  - intros ->. reflexivity.
  - subst db2 record'. unfold record_feedback.
    apply pass_idempotent.
Qed.

(** C6.  The feedback table keeps one row per call: two calls of
    [record_feedback] for ticket [PS-1] on a fresh store leave two rows
    for [PS-1], the older one with its older label. *)
Theorem feedback_rows_accumulate :
  let db1 := record' init_database "PS-1" "Pixel not firing on checkout"
               None "high:pixel not firing" false_positive None in
  let db2 := record' db1 "PS-1" "Pixel not firing on checkout"
               None "high:pixel not firing" true_positive None in
  map (fun r => (fb_id r, fb_ticket_id r, fb_user_feedback r)) (feedback db2)
  = [ (1, "PS-1", false_positive); (2, "PS-1", true_positive) ].
Proof.
  reflexivity.
Qed.

(** Every call of [record_feedback] adds a row to the feedback table. *)
Lemma record_feedback_appends (db : database)
    (ticket_id summary : string) (description : option string)
    (detection_reason : string) (label : user_feedback)
    (confidence_score : option Q) :
  List.length
    (feedback (record' db ticket_id summary description detection_reason
                 label confidence_score))
  = S (List.length (feedback db)).
Proof.
  unfold record', record_feedback, process_feedback_to_training_data.
  rewrite process_rows_feedback, length_map.
  unfold insert_or_replace_feedback. simpl.
  rewrite length_app. simpl. lia.
Qed.

(** *** Consistency is kept by every step *)

Lemma consistent_init : consistent init_database [].
Proof.
  constructor; simpl; try tauto; constructor.
Qed.

Lemma consistent_insert (db : database) (log : list nat)
    (ticket_id summary : string) (description : option string)
    (detection_reason : string) (label : user_feedback)
    (confidence_score : option Q) :
  consistent db log ->
  consistent (insert_or_replace_feedback db ticket_id summary description
                detection_reason label confidence_score) log.
Proof.
  intros [Hids Hbound Hlog Hlogb Hflag Hex Hback].
  constructor; simpl.
  - rewrite map_app. simpl.
    apply NoDup_app; [assumption | repeat constructor; intros [] |].
    intros x Hx [<- | []].
    apply in_map_iff in Hx. destruct Hx as (r & Hr & Hin).
    apply Hbound in Hin. lia.
  - intros r Hr. apply in_app_iff in Hr. destruct Hr as [Hr | [<- | []]].
    + apply Hbound in Hr. lia.
    + simpl. lia.
  - assumption.
  - intros id Hid. apply Hlogb in Hid. lia.
  - intros r Hr. apply in_app_iff in Hr. destruct Hr as [Hr | [<- | []]].
    + now apply Hflag.
    + simpl. split; [discriminate|].
      intros Hin. apply Hlogb in Hin. lia.
  - intros r Hr Hp. apply in_app_iff in Hr. destruct Hr as [Hr | [<- | []]].
    + now apply Hex.
    + discriminate.
  - intros ticket Hticket.
    destruct (Hback ticket Hticket) as (r & Hr & Ht & Hp).
    exists r. rewrite in_app_iff. tauto.
Qed.

Lemma NoDup_map_inj {A B : Type} (f : A -> B) (l : list A) (a b : A) :
  NoDup (map f l) -> In a l -> In b l -> f a = f b -> a = b.
Proof.
  induction l as [|x l IH]; simpl; [tauto|].
  intros Hnd Ha Hb E. inversion Hnd as [|? ? Hnotin Hnd']; subst.
  destruct Ha as [-> | Ha], Hb as [-> | Hb].
  - reflexivity.
  - exfalso. apply Hnotin. rewrite E. now apply in_map.
  - exfalso. apply Hnotin. rewrite <- E. now apply in_map.
  - now apply IH.
Qed.

(** The loop keeps the stores consistent at every row boundary: after
    any set of unprocessed rows has gone through its body. *)
Lemma consistent_rows (db : database) (log : list nat)
    (rows : list feedback_row) :
  consistent db log ->
  incl rows (unprocessed db) ->
  NoDup (map fb_id rows) ->
  consistent (fold_left (process_row features_json) rows db)
             (log ++ map fb_id rows).
Proof.
  intros [Hids Hbound Hlog Hlogb Hflag Hex Hback] Hincl Hrows.
  set (db' := fold_left (process_row features_json) rows db).
  assert (Hfb : feedback db' = map (mark (map fb_id rows)) (feedback db))
    by apply process_rows_feedback.
  assert (Hseq : feedback_seq db' = feedback_seq db)
    by apply process_rows_feedback_seq.
  assert (Hun : forall r, In r rows ->
                          In r (feedback db) /\ fb_processed r = false).
  { intros r Hr. apply Hincl, filter_In in Hr. destruct Hr as [Hr Hp].
    now apply negb_true_iff in Hp. }
  assert (Hids_eq : map fb_id (feedback db') = map fb_id (feedback db)).
  { rewrite Hfb, map_map. apply map_ext. intros r. apply mark_id. }
  assert (Hmem : forall r, In r (feedback db) ->
            In (fb_id r) (map fb_id rows) -> In r rows).
  { intros r Hr Hin. apply in_map_iff in Hin. destruct Hin as (u & Hu & Hin).
    destruct (Hun u Hin) as [Hufb _].
    now rewrite <- (NoDup_map_inj fb_id _ u r Hids Hufb Hr Hu). }
  constructor.
  - now rewrite Hids_eq.
  - intros r' Hr'. rewrite Hfb in Hr'. apply in_map_iff in Hr'.
    destruct Hr' as (r & <- & Hr). rewrite mark_id, Hseq. now apply Hbound.
  - apply NoDup_app.
    + assumption.
    + assumption.
    + intros x Hx Hy.
      apply in_map_iff in Hy. destruct Hy as (u & Hu & Hin).
      destruct (Hun u Hin) as [Hufb Hup]. subst x.
      apply (Hflag u Hufb) in Hx. congruence.
  - intros id Hid. rewrite Hseq. apply in_app_iff in Hid.
    destruct Hid as [Hid | Hid]; [now apply Hlogb|].
    apply in_map_iff in Hid. destruct Hid as (u & <- & Hin).
    apply Hbound. now apply Hun.
  - intros r' Hr'. rewrite Hfb in Hr'. apply in_map_iff in Hr'.
    destruct Hr' as (r & <- & Hr).
    rewrite mark_id, mark_processed, in_app_iff, orb_true_iff, existsb_eqb_In.
    rewrite (Hflag r Hr). tauto.
  - intros r' Hr' Hp. rewrite Hfb in Hr'. apply in_map_iff in Hr'.
    destruct Hr' as (r & <- & Hr). rewrite mark_ticket.
    rewrite mark_processed, orb_true_iff, existsb_eqb_In in Hp.
    apply process_rows_tickets.
    destruct Hp as [Hp | Hp].
    + right. now apply Hex.
    + left. apply in_map. now apply Hmem.
  - intros ticket Hticket. apply process_rows_tickets in Hticket.
    destruct Hticket as [Hin | Hin].
    + apply in_map_iff in Hin. destruct Hin as (u & Hu & Hin).
      exists (mark (map fb_id rows) u).
      rewrite Hfb, mark_ticket, mark_processed. repeat split.
      * apply in_map. now apply Hun.
      * assumption.
      * apply orb_true_iff. right. apply existsb_eqb_In. now apply in_map.
    + destruct (Hback ticket Hin) as (r & Hr & Ht & Hp).
      exists (mark (map fb_id rows) r).
      rewrite Hfb, mark_ticket, mark_processed, Hp. repeat split.
      * now apply in_map.
      * assumption.
Qed.

Lemma consistent_pass (db : database) (log : list nat) :
  consistent db log ->
  consistent (process' db) (log ++ map fb_id (unprocessed db)).
Proof.
  intros H. apply consistent_rows.
  - assumption.
  - apply incl_refl.
  - apply NoDup_map_filter, (ids_unique _ _ H).
Qed.

Lemma consistent_working_state (db : database) (log : list nat) (k : nat) :
  consistent db log ->
  consistent (pass_working_state features_json k db)
             (log ++ map fb_id (firstn k (unprocessed db))).
Proof.
  intros H. apply consistent_rows.
  - assumption.
  - intros r Hr. rewrite <- (firstn_skipn k (unprocessed db)).
    apply in_app_iff. now left.
  - apply (NoDup_app_remove_r _ (map fb_id (skipn k (unprocessed db)))).
    rewrite <- map_app, firstn_skipn.
    apply NoDup_map_filter, (ids_unique _ _ H).
Qed.

Lemma consistent_run (evs : list event) (db : database) (log : list nat) :
  consistent db log ->
  consistent (fst (run_events features_json evs (db, log)))
             (snd (run_events features_json evs (db, log))).
Proof.
  revert db log. induction evs as [|ev evs IH]; intros db log H; [exact H|].
  unfold run_events. simpl. destruct ev; apply IH.
  - now apply consistent_insert.
  - now apply consistent_pass.
  - exact H.
Qed.

(** C7.  Over any history of committed inserts, completed passes and
    interrupted passes on a fresh store:
    - the next pass reads only rows with [processed = FALSE], none of
      which has been materialized before;
    - it flags every row it reads and writes that row's training
      example, and leaves no row unprocessed;
    - over the whole history every feedback row is materialized at most
      once;
    - no row is half-processed, in the committed store and in the
      working state of a pass after any number of rows; an interrupted
      pass leaves the committed store as it was. *)
Theorem materialized_at_most_once (evs : list event) :
  let st := run_events features_json evs (init_database, []) in
  let db := fst st in
  let log := snd st in
  (forall r, In r (unprocessed db) ->
     fb_processed r = false /\ ~ In (fb_id r) log)
  /\ (forall r, In r (unprocessed db) ->
       In (fb_ticket_id r) (training_tickets (process' db))
       /\ exists r', In r' (feedback (process' db))
                     /\ fb_id r' = fb_id r /\ fb_processed r' = true)
  /\ unprocessed (process' db) = []
  /\ NoDup log
  /\ NoDup (snd (run_event features_json st Pass))
  /\ consistent db log
  /\ (forall k, consistent (pass_working_state features_json k db)
                  (log ++ map fb_id (firstn k (unprocessed db))))
  /\ (forall k, run_event features_json st (InterruptedPass k) = st).
Proof.
  intros st db log.
  assert (H : consistent db log) by (apply consistent_run, consistent_init).
  assert (Hun : forall r, In r (unprocessed db) ->
                          In r (feedback db) /\ fb_processed r = false).
  { intros r Hr. apply filter_In in Hr. destruct Hr as [Hr Hp].
    now apply negb_true_iff in Hp. }
  pose proof (consistent_pass db log H) as Hpass.
  split; [|split; [|split; [|split; [|split; [|split; [|split]]]]]].
  - intros r Hr. destruct (Hun r Hr) as [Hfb Hp]. split; [assumption|].
    intros Hin. apply (flag_iff_logged _ _ H r Hfb) in Hin. congruence.
  - intros r Hr. split.
    + apply process_rows_tickets. left. now apply in_map.
    + exists (mark (map fb_id (unprocessed db)) r).
      unfold process', process_feedback_to_training_data.
      rewrite process_rows_feedback, mark_id, mark_processed.
      split; [|split].
      * apply in_map. now apply Hun.
      * reflexivity.
      * apply orb_true_iff. right. apply existsb_eqb_In. now apply in_map.
  - apply unprocessed_after_pass.
  - apply (log_once _ _ H).
  - subst db log. destruct st as [db log]. simpl. apply (log_once _ _ Hpass).
  - exact H.
  - intros k. now apply consistent_working_state.
  - intros k. subst db log. now destruct st.
Qed.

End StoreClaims.

(** ** Pattern analyzer *)

Lemma cnt_incr (c : list (string * nat)) (token k : string) :
  cnt (counter_incr c token) k
  = if String.eqb token k then S (cnt c k) else cnt c k.
Proof.
  unfold cnt. induction c as [|[k' n] c IH]; simpl.
  - destruct (String.eqb token k); reflexivity.
  - destruct (String.eqb_spec k' token) as [-> | Hne]; simpl.
    + destruct (String.eqb token k); reflexivity.
    + destruct (String.eqb_spec k' k) as [-> | Hne'].
      * destruct (String.eqb_spec token k); [congruence | reflexivity].
      * exact IH.
Qed.

Lemma cnt_fold (tokens : list string) (c : list (string * nat)) (k : string) :
  cnt (fold_left counter_incr tokens c) k
  = count_occ string_dec tokens k + cnt c k.
Proof.
  revert c. induction tokens as [|t tokens IH]; intros c; simpl; [reflexivity|].
  rewrite IH, cnt_incr.
  destruct (string_dec t k) as [-> | Hne].
  - rewrite String.eqb_refl. lia.
  - apply String.eqb_neq in Hne. now rewrite Hne.
Qed.

Lemma counter_incr_keys (c : list (string * nat)) (token k : string) :
  In k (map fst (counter_incr c token)) <-> k = token \/ In k (map fst c).
Proof.
  induction c as [|[k' n] c IH]; simpl; [intuition|].
  destruct (String.eqb_spec k' token) as [-> | Hne]; simpl.
  - intuition congruence.
  - rewrite IH. tauto.
Qed.

Lemma counter_incr_NoDup (c : list (string * nat)) (token : string) :
  NoDup (map fst c) -> NoDup (map fst (counter_incr c token)).
Proof.
  induction c as [|[k n] c IH]; simpl; intros H.
  - repeat constructor. intros [].
  - inversion H as [|? ? Hnotin Hnd]; subst.
    destruct (String.eqb_spec k token) as [-> | Hne]; simpl.
    + now constructor.
    + constructor; [|now apply IH].
      rewrite counter_incr_keys. intros [-> | Hin]; congruence.
Qed.

Lemma Counter_NoDup (tokens : list string) : NoDup (map fst (Counter tokens)).
Proof.
  unfold Counter.
  assert (H : NoDup (map fst (@nil (string * nat)))) by constructor.
  revert H. generalize (@nil (string * nat)) as c.
  induction tokens as [|t tokens IH]; intros c H; simpl; [exact H|].
  apply IH. now apply counter_incr_NoDup.
Qed.

Lemma cnt_In (c : list (string * nat)) (k : string) (n : nat) :
  NoDup (map fst c) -> In (k, n) c -> cnt c k = n.
Proof.
  unfold cnt. induction c as [|[k' n'] c IH]; simpl; [tauto|].
  intros Hnd Hin. inversion Hnd as [|? ? Hnotin Hnd']; subst.
  destruct Hin as [[= -> ->] | Hin].
  - now rewrite String.eqb_refl.
  - destruct (String.eqb_spec k' k) as [-> | Hne].
    + exfalso. apply Hnotin. apply in_map_iff. now exists (k, n).
    + now apply IH.
Qed.

Lemma In_cnt (c : list (string * nat)) (k : string) :
  0 < cnt c k -> In (k, cnt c k) c.
Proof.
  unfold cnt. induction c as [|[k' n'] c IH]; simpl; [lia|].
  destruct (String.eqb_spec k' k) as [-> | Hne].
  - now left.
  - intros H. right. now apply IH.
Qed.

Lemma fold_counter_keys (tokens : list string) (c : list (string * nat))
    (k : string) :
  In k (map fst (fold_left counter_incr tokens c)) ->
  In k tokens \/ In k (map fst c).
Proof.
  revert c. induction tokens as [|t tokens IH]; intros c; simpl; [tauto|].
  intros H. apply IH in H. rewrite counter_incr_keys in H.
  intuition auto.
Qed.

(** The counter holds, for each token, the number of its occurrences. *)
Lemma Counter_spec (tokens : list string) (k : string) (n : nat) :
  In (k, n) (Counter tokens)
  <-> n = count_occ string_dec tokens k /\ 0 < n.
Proof.
  assert (Hcnt : cnt (Counter tokens) k = count_occ string_dec tokens k).
  { unfold Counter. rewrite cnt_fold. unfold cnt. simpl. lia. }
  split.
  - intros Hin. pose proof (cnt_In _ _ _ (Counter_NoDup tokens) Hin) as E.
    split; [congruence|].
    rewrite <- E, Hcnt. apply count_occ_In.
    assert (Hk : In k (map fst (Counter tokens)))
      by (apply in_map_iff; now exists (k, n)).
    destruct (fold_counter_keys _ _ _ Hk) as [|[]]. assumption.
  - intros [-> Hpos]. rewrite <- Hcnt. apply In_cnt. now rewrite Hcnt.
Qed.

(** *** Sorting by count *)

Lemma insert_desc_perm (x : string * nat) (l : list (string * nat)) :
  Permutation (insert_desc x l) (x :: l).
Proof.
  induction l as [|y l IH]; simpl; [reflexivity|].
  destruct (snd x <? snd y); [|reflexivity].
  rewrite IH. apply perm_swap.
Qed.

Lemma sorted_desc_perm (l : list (string * nat)) :
  Permutation (sorted_desc l) l.
Proof.
  induction l as [|x l IH]; simpl; [reflexivity|].
  rewrite insert_desc_perm. now constructor.
Qed.

Lemma insert_desc_sorted (x : string * nat) (l : list (string * nat)) :
  StronglySorted by_count_desc l ->
  StronglySorted by_count_desc (insert_desc x l).
Proof.
  induction l as [|y l IH]; simpl; intros H.
  - repeat constructor.
  - inversion H as [|? ? Hl Hy]; subst.
    destruct (Nat.ltb_spec (snd x) (snd y)) as [Hlt | Hge].
    + constructor; [now apply IH|].
      rewrite Forall_forall in *. intros z Hz.
      apply (Permutation_in _ (insert_desc_perm x l)) in Hz.
      destruct Hz as [<- | Hz]; [unfold by_count_desc; lia | now apply Hy].
    + constructor; [assumption|].
      constructor; [exact Hge|].
      rewrite Forall_forall in *. intros z Hz.
      specialize (Hy z Hz). unfold by_count_desc in *. lia.
Qed.

Lemma sorted_desc_sorted (l : list (string * nat)) :
  StronglySorted by_count_desc (sorted_desc l).
Proof.
  induction l as [|x l IH]; simpl; [constructor|].
  now apply insert_desc_sorted.
Qed.

(** In a list sorted by decreasing count, the entries of count at least
    [m] come first: if there are at most [n] of them, they are all among
    the first [n]. *)
Lemma firstn_covers (m n : nat) (l : list (string * nat)) :
  StronglySorted by_count_desc l ->
  List.length (filter (fun pc => m <=? snd pc) l) <= n ->
  forall pc, In pc l -> m <= snd pc -> In pc (firstn n l).
Proof.
  intros Hsorted. revert n.
  induction Hsorted as [|y l Hl IH Hy]; intros n Hlen pc Hin Hm; [destruct Hin|].
  simpl in Hlen.
  destruct (Nat.leb_spec m (snd y)) as [Hym | Hym].
  - destruct n as [|n]; simpl in *; [lia|].
    destruct Hin as [-> | Hin]; [now left | right].
    apply IH; [lia | assumption | assumption].
  - exfalso. destruct Hin as [-> | Hin]; [lia|].
    rewrite Forall_forall in Hy. specialize (Hy pc Hin).
    unfold by_count_desc in Hy. lia.
Qed.

Lemma In_firstn {A : Type} (n : nat) (l : list A) (x : A) :
  In x (firstn n l) -> In x l.
Proof.
  intros H. rewrite <- (firstn_skipn n l). apply in_app_iff. now left.
Qed.

Lemma filter_length {A : Type} (f : A -> bool) (l : list A) :
  List.length (filter f l) <= List.length l.
Proof.
  induction l as [|x l IH]; simpl; [lia|]. destruct (f x); simpl; lia.
Qed.

(** *** Suggestions *)

(** A suggested token occurs at least twice. *)
Lemma suggest_sound (tokens : list string) (token : string) :
  In token (suggest (Counter tokens)) ->
  2 <= count_occ string_dec tokens token.
Proof.
  unfold suggest, most_common. intros H.
  apply in_map_iff in H. destruct H as ([k n] & <- & H).
  apply filter_In in H. destruct H as [H Hn]. cbn [fst snd] in *.
  apply In_firstn in H.
  apply (Permutation_in _ (sorted_desc_perm _)) in H.
  apply Counter_spec in H. destruct H as [-> _].
  now apply Nat.leb_le.
Qed.

(** At most five tokens are suggested. *)
Lemma suggest_capped (counter : list (string * nat)) :
  List.length (suggest counter) <= 5.
Proof.
  unfold suggest, most_common. rewrite length_map.
  etransitivity; [apply filter_length | apply firstn_le_length].
Qed.

(** When at most five distinct tokens occur twice or more, each of them
    is suggested. *)
Lemma suggest_complete (tokens frequent : list string) (token : string) :
  NoDup frequent ->
  List.length frequent <= 5 ->
  (forall t, 2 <= count_occ string_dec tokens t -> In t frequent) ->
  2 <= count_occ string_dec tokens token ->
  In token (suggest (Counter tokens)).
Proof.
  intros Hnd Hlen Hfreq Htoken.
  unfold suggest, most_common.
  set (sorted := sorted_desc (Counter tokens)).
  assert (Hperm : Permutation sorted (Counter tokens))
    by apply sorted_desc_perm.
  assert (Hkeys : NoDup (map fst sorted)).
  { apply (Permutation_NoDup (Permutation_map fst (Permutation_sym Hperm))).
    apply Counter_NoDup. }
  assert (Hfew : List.length (filter (fun pc => 2 <=? snd pc) sorted) <= 5).
  { rewrite <- (length_map fst).
    etransitivity; [|exact Hlen].
    apply NoDup_incl_length; [now apply NoDup_map_filter|].
    intros k Hk. apply in_map_iff in Hk. destruct Hk as ([k' n] & <- & Hk).
    apply filter_In in Hk. destruct Hk as [Hk Hn]. simpl in *.
    apply (Permutation_in _ Hperm), Counter_spec in Hk.
    destruct Hk as [-> _]. apply Hfreq. now apply Nat.leb_le. }
  apply in_map_iff.
  exists (token, count_occ string_dec tokens token). split; [reflexivity|].
  apply filter_In. split; [|now apply Nat.leb_le].
  apply (firstn_covers 2); try assumption.
  - apply sorted_desc_sorted.
  - apply (Permutation_in _ (Permutation_sym Hperm)).
    apply Counter_spec. split; [reflexivity | lia].
Qed.

(** A check of the side condition of [suggest_complete] by evaluation. *)
Lemma frequent_by_check (tokens frequent : list string) :
  forallb (fun t => (count_occ string_dec tokens t <? 2)
                    || existsb (String.eqb t) frequent) tokens = true ->
  forall t, 2 <= count_occ string_dec tokens t -> In t frequent.
Proof.
  intros Hcheck t Ht.
  assert (Hin : In t tokens) by (apply (count_occ_In string_dec); lia).
  rewrite forallb_forall in Hcheck. specialize (Hcheck t Hin).
  apply orb_true_iff in Hcheck. destruct Hcheck as [Hlt | Hex].
  - apply Nat.ltb_lt in Hlt. lia.
  - apply existsb_exists in Hex. destruct Hex as (x & Hx & E).
    apply String.eqb_eq in E. now subst.
Qed.

Section AnalyzerClaims.

Variable lower : string -> string.
Variable split : string -> list string.

(** C8, as the code has it.  [suggested_exclusions] holds the tokens,
    among the five most common tokens of the false-positive texts, that
    occur at least twice: every suggested token occurs at least twice,
    at most five are suggested, and when at most five distinct tokens
    occur at least twice the suggestions are exactly those tokens.
    [suggested_keywords] is the same over the false-negative texts. *)
Theorem suggestions_are_frequent_top5 (db : database) :
  let fp_tokens := patterns lower split (select_feedback false_positive db) in
  let fn_tokens := patterns lower split (select_feedback false_negative db) in
  let a := analyze_patterns lower split db in
  suggested_exclusions a
    = map fst (filter (fun pc => 2 <=? snd pc)
                 (firstn 5 (sorted_desc (Counter fp_tokens))))
  /\ suggested_keywords a
    = map fst (filter (fun pc => 2 <=? snd pc)
                 (firstn 5 (sorted_desc (Counter fn_tokens))))
  /\ (forall token, In token (suggested_exclusions a) ->
        2 <= count_occ string_dec fp_tokens token)
  /\ (forall token, In token (suggested_keywords a) ->
        2 <= count_occ string_dec fn_tokens token)
  /\ List.length (suggested_exclusions a) <= 5
  /\ List.length (suggested_keywords a) <= 5
  /\ (forall frequent, NoDup frequent -> List.length frequent <= 5 ->
        (forall t, 2 <= count_occ string_dec fp_tokens t -> In t frequent) ->
        forall token, In token (suggested_exclusions a)
                      <-> 2 <= count_occ string_dec fp_tokens token)
  /\ (forall frequent, NoDup frequent -> List.length frequent <= 5 ->
        (forall t, 2 <= count_occ string_dec fn_tokens t -> In t frequent) ->
        forall token, In token (suggested_keywords a)
                      <-> 2 <= count_occ string_dec fn_tokens token).
Proof.
  intros fp_tokens fn_tokens a. simpl.
  split; [reflexivity|]. split; [reflexivity|].
  split; [apply suggest_sound|]. split; [apply suggest_sound|].
  split; [apply suggest_capped|]. split; [apply suggest_capped|].
  split; intros frequent Hnd Hlen Hfreq token; split;
    solve [apply suggest_sound | now apply (suggest_complete _ frequent)].
Qed.

End AnalyzerClaims.

(** Two false positives with the same six words: each word occurs twice,
    and the sixth is not suggested. *)
Lemma suggestions_not_all_frequent :
  let features_json := fun (_ : string) (_ : option string) => "{}" in
  let db1 := record_feedback features_json init_database "PS-101"
               "Grant dashboard access for pixel reports" None
               "pixel_context:page" false_positive None in
  let db2 := record_feedback features_json db1 "PS-102"
               "grant dashboard access for pixel reports" None
               "pixel_context:page" false_positive None in
  let fp_tokens :=
    patterns ascii_lower ascii_split (select_feedback false_positive db2) in
  let a := analyze_patterns ascii_lower ascii_split db2 in
  ~ (forall token, In token (suggested_exclusions a)
                   <-> 2 <= count_occ string_dec fp_tokens token).
Proof.
  intros features_json db1 db2 fp_tokens a H.
  assert (Hin : In "reports" (suggested_exclusions a))
    by (apply H; vm_compute; lia).
  vm_compute in Hin.
  repeat (destruct Hin as [Hin | Hin]; [discriminate|]).
  exact Hin.
Qed.

(** Three false positives that all contain [access], which is only the
    sixth most common token: it is not suggested. *)
Lemma access_not_among_top5 :
  let features_json := fun (_ : string) (_ : option string) => "{}" in
  let text := "pixel pixel tag tag page page code code site site access" in
  let db1 := record_feedback features_json init_database "PS-201" text None
               "pixel_context:page" false_positive None in
  let db2 := record_feedback features_json db1 "PS-202" text None
               "pixel_context:page" false_positive None in
  let db3 := record_feedback features_json db2 "PS-203" text None
               "pixel_context:page" false_positive None in
  false_positive_count (analyze_patterns ascii_lower ascii_split db3) = 3
  /\ suggested_exclusions (analyze_patterns ascii_lower ascii_split db3)
     = [ "pixel"; "tag"; "page"; "code"; "site" ].
Proof.
  split; vm_compute; reflexivity.
Qed.

(** Three false positives that all contain [access], with at most five
    distinct tokens occurring twice or more: [access] is suggested. *)
Lemma suggestions_are_frequent_top5_witness :
  let features_json := fun (_ : string) (_ : option string) => "{}" in
  let db1 := record_feedback features_json init_database "PS-301"
               "Access request for DSP seat" None
               "medium:tracking_action" false_positive None in
  let db2 := record_feedback features_json db1 "PS-302"
               "Grant access to pixel dashboard" None
               "pixel_context:page" false_positive None in
  let db3 := record_feedback features_json db2 "PS-303"
               "Pixel report access" None
               "pixel_context:page" false_positive None in
  In "access" (suggested_exclusions (analyze_patterns ascii_lower ascii_split db3)).
Proof.
  intros features_json db1 db2 db3.
  pose proof (suggestions_are_frequent_top5 ascii_lower ascii_split db3) as H.
  cbv zeta in H.
  destruct H as (_ & _ & _ & _ & _ & _ & H & _).
  apply (H [ "access"; "pixel" ]).
  - repeat constructor; simpl; intuition discriminate.
  - simpl. lia.
  - apply frequent_by_check. vm_compute. reflexivity.
  - vm_compute. lia.
Defined.

(** ** Document trees *)

Lemma has_key_dict_get (key : string) (items : list (string * pyval)) :
  has_key key items = true <-> dict_get items key <> None.
Proof.
  unfold has_key. induction items as [|[k v] items IH]; simpl.
  - split; [discriminate | congruence].
  - destruct (String.eqb k key); simpl; [|exact IH].
    split; [discriminate | reflexivity].
Qed.

Lemma dict_get_In {V : Type} (d : list (string * V)) (key : string) (v : V) :
  dict_get d key = Some v -> In (key, v) d.
Proof.
  induction d as [|[k v'] d IH]; simpl; [discriminate|].
  destruct (String.eqb_spec k key) as [-> | Hne].
  - intros [= ->]. now left.
  - intros H. right. now apply IH.
Qed.

Lemma append_empty_r (s : string) : (s ++ "")%string = s.
Proof.
  induction s as [|c s IH]; simpl; [reflexivity | now rewrite IH].
Qed.

Lemma append_assoc (a b c : string) :
  ((a ++ b) ++ c)%string = (a ++ b ++ c)%string.
Proof.
  induction a as [|x a IH]; simpl; [reflexivity | now rewrite IH].
Qed.

Lemma all_spaces_app (a b : string) :
  all_spaces a = true -> all_spaces b = true ->
  all_spaces (a ++ b)%string = true.
Proof.
  induction a as [|c a IH]; simpl; [tauto|].
  intros Ha Hb. apply andb_true_iff in Ha. destruct Ha as [Hc Ha].
  rewrite Hc. simpl. now apply IH.
Qed.

Lemma weave_one (s : string) : weave [s] s.
Proof.
  pose proof (weave_cons "" s [] "" eq_refl (weave_nil "" eq_refl)) as H.
  simpl in H. now rewrite append_empty_r in H.
Qed.

(** Joining two woven strings with a space weaves the two lists. *)
Lemma weave_join (ts1 ts2 : list string) (s1 s2 : string) :
  weave ts1 s1 -> weave ts2 s2 ->
  weave (ts1 ++ ts2) (s1 ++ " " ++ s2)%string.
Proof.
  intros H1 H2. induction H1 as [pad Hpad | pad t ts rest Hpad Hrest IH].
  - cbn [List.app].
    destruct H2 as [pad2 Hpad2 | pad2 t2 ts2 rest2 Hpad2 Hrest2].
    + constructor. apply all_spaces_app; [assumption|]. simpl. exact Hpad2.
    + assert (E : (pad ++ " " ++ pad2 ++ t2 ++ rest2)%string
                  = ((pad ++ " " ++ pad2) ++ t2 ++ rest2)%string).
      { rewrite append_assoc. reflexivity. }
      rewrite E. constructor; [|assumption].
      apply all_spaces_app; [assumption|]. simpl. exact Hpad2.
  - cbn [List.app]. rewrite !append_assoc. now constructor.
Qed.

Section NormalizerClaims.

Variable py_str : pyval -> string.

Let extract := extract_text_from_rich_format py_str.

Lemma extract_PList (elems : list pyval) :
  extract (PList elems)
  = (text_parts <- each_text py_str elems ;; Ok (join " " text_parts)).
Proof. reflexivity. Qed.

Lemma lookup_then_spec {R : Type} (key : string) (f : pyval -> R) (d : R)
    (kvs : list (string * pyval)) :
  lookup_then key f d kvs
  = match dict_get kvs key with Some v => f v | None => d end.
Proof.
  induction kvs as [|[k v] kvs IH]; simpl; [reflexivity|].
  destruct (String.eqb k key); [reflexivity | exact IH].
Qed.

Lemma has_key_false (key : string) (items : list (string * pyval)) :
  dict_get items key = None -> has_key key items = false.
Proof.
  intros H. destruct (has_key key items) eqn:E; [|reflexivity].
  apply has_key_dict_get in E. contradiction.
Qed.

Lemma has_key_true (key : string) (items : list (string * pyval)) (v : pyval) :
  dict_get items key = Some v -> has_key key items = true.
Proof.
  intros H. apply has_key_dict_get. congruence.
Qed.

(** What [extract_text_from_rich_format] does on a dict, by the values
    of its [content] and [text] keys. *)
Lemma extract_PDict (items : list (string * pyval)) :
  extract (PDict items)
  = match dict_get items "content" with
    | Some (PList elems) => extract (PList elems)
    | Some (PDict sub) => Ok (join " " (map fst sub))
    | Some (PStr s) => Ok (join " " (chars s))
    | Some _ => Raise TypeError
    | None =>
        match dict_get items "text" with
        | Some (PStr s) => Ok s
        | Some _ => Raise TypeError
        | None => Ok ""
        end
    end.
Proof.
  transitivity
    (if has_key "content" items then
       lookup_then "content"
         (fun v => match v with
                   | PList elems => extract (PList elems)
                   | PDict sub => Ok (join " " (map fst sub))
                   | PStr s => Ok (join " " (chars s))
                   | _ => Raise TypeError
                   end) (Ok "") items
     else if has_key "text" items then
       lookup_then "text"
         (fun v => match v with
                   | PStr s => Ok s
                   | _ => Raise TypeError
                   end) (Ok "") items
     else Ok "").
  - reflexivity.
  - rewrite !lookup_then_spec.
    destruct (dict_get items "content") as [v|] eqn:Ec.
    + rewrite (has_key_true _ _ _ Ec). destruct v; reflexivity.
    + rewrite (has_key_false _ _ Ec).
      destruct (dict_get items "text") as [v|] eqn:Et.
      * rewrite (has_key_true _ _ _ Et). destruct v; reflexivity.
      * rewrite (has_key_false _ _ Et). reflexivity.
Qed.

Lemma well_formed_PDict (items : list (string * pyval)) :
  well_formed (PDict items)
  = match dict_get items "content" with
    | Some (PList elems) =>
        negb (has_key "text" items) && forallb well_formed elems
    | Some _ => false
    | None =>
        match dict_get items "text" with
        | Some (PStr _) | None => true
        | Some _ => false
        end
    end.
Proof.
  transitivity
    (if has_key "content" items then
       negb (has_key "text" items)
       && lookup_then "content"
            (fun v => match v with
                      | PList elems => forallb well_formed elems
                      | _ => false
                      end) true items
     else if has_key "text" items then
       lookup_then "text"
         (fun v => match v with PStr _ => true | _ => false end) true items
     else true).
  - reflexivity.
  - rewrite !lookup_then_spec.
    destruct (dict_get items "content") as [v|] eqn:Ec.
    + rewrite (has_key_true _ _ _ Ec).
      destruct v; try reflexivity; apply andb_false_r.
    + rewrite (has_key_false _ _ Ec).
      destruct (dict_get items "text") as [v|] eqn:Et.
      * rewrite (has_key_true _ _ _ Et). destruct v; reflexivity.
      * rewrite (has_key_false _ _ Et). reflexivity.
Qed.

Lemma texts_PDict (items : list (string * pyval)) :
  texts (PDict items)
  = match dict_get items "content" with
    | Some (PList elems) => texts (PList elems)
    | _ => []
    end
    ++ match dict_get items "text" with
       | Some (PStr s) => [s]
       | _ => []
       end.
Proof.
  transitivity
    (lookup_then "content"
       (fun v => match v with
                 | PList elems => texts (PList elems)
                 | _ => []
                 end) [] items
     ++ lookup_then "text"
          (fun v => match v with PStr s => [s] | _ => [] end) [] items).
  - reflexivity.
  - rewrite !lookup_then_spec.
    destruct (dict_get items "content") as [[]|];
      destruct (dict_get items "text") as [[]|]; reflexivity.
Qed.

Lemma each_text_nil (elems : list pyval) :
  each_text py_str elems = Ok [] -> elems = [].
Proof.
  destruct elems as [|x elems]; [reflexivity|]. simpl.
  destruct (extract_text_from_rich_format py_str x); [|discriminate]. simpl.
  destruct (each_text py_str elems); discriminate.
Qed.

Lemma each_text_weave (elems : list pyval) :
  Forall (normalizes py_str) elems ->
  forallb well_formed elems = true ->
  exists parts,
    each_text py_str elems = Ok parts
    /\ weave (flat_map texts elems) (join " " parts).
Proof.
  induction elems as [|x elems IH]; intros Hall Hwf.
  - exists []. split; [reflexivity|]. now constructor.
  - simpl in Hwf. apply andb_true_iff in Hwf. destruct Hwf as [Hx Hwf].
    inversion Hall as [|? ? Px Pelems]; subst.
    destruct (Px Hx) as (out & Hout & Wout).
    destruct (IH Pelems Hwf) as (parts & Hparts & Wparts).
    exists (out :: parts). split.
    + cbn [each_text]. rewrite Hout. cbn [bind]. rewrite Hparts. reflexivity.
    + cbn [flat_map]. destruct parts as [|p parts].
      * apply each_text_nil in Hparts. subst elems.
        simpl. now rewrite app_nil_r.
      * change (join " " (out :: p :: parts))
          with (out ++ " " ++ join " " (p :: parts))%string.
        now apply weave_join.
Qed.

Lemma extract_well_formed (data : pyval) : normalizes py_str data.
Proof.
  induction data as [s | items IH | elems IH | | b | q] using pyval_induction;
    unfold normalizes; fold extract; intros Hwf; try discriminate.
  - exists s. split; [reflexivity | apply weave_one].
  - rewrite well_formed_PDict in Hwf. rewrite extract_PDict, texts_PDict.
    destruct (dict_get items "content") as [v|] eqn:Ec.
    + destruct v as [ | | elems | | | ]; try discriminate.
      apply andb_true_iff in Hwf. destruct Hwf as [Htext Hwf].
      apply negb_true_iff in Htext.
      destruct (dict_get items "text") as [v|] eqn:Et.
      { rewrite (has_key_true _ _ _ Et) in Htext. discriminate. }
      rewrite app_nil_r.
      rewrite Forall_forall in IH.
      apply (IH _ (dict_get_In _ _ _ Ec)). exact Hwf.
    + destruct (dict_get items "text") as [v|] eqn:Et.
      * destruct v as [s | | | | | ]; try discriminate.
        exists s. split; [reflexivity | apply weave_one].
      * exists "". split; [reflexivity | now constructor].
  - rewrite extract_PList.
    destruct (each_text_weave elems IH Hwf) as (parts & Hparts & Wparts).
    exists (join " " parts). rewrite Hparts. split; [reflexivity | exact Wparts].
Qed.

Lemma desc_text_extract (data : pyval) (out : string) :
  (forall elems, data <> PList elems) ->
  well_formed data = true ->
  extract data = Ok out ->
  desc_text py_str data = Ok out.
Proof.
  intros Hlist Hwf Hout. destruct data as [s | items | elems | | b | q];
    try discriminate.
  - injection Hout as <-. unfold desc_text. simpl.
    destruct (String.eqb_spec s ""); [now subst | reflexivity].
  - unfold desc_text. destruct items as [|kv items].
    + simpl. rewrite <- Hout. reflexivity.
    + cbn [truthy]. fold extract. rewrite Hout. reflexivity.
  - now destruct (Hlist elems).
Qed.

End NormalizerClaims.


(** A text run whose [text] is a number: [' '.join] raises. *)
Lemma normalizer_raises_on_number_text :
  extract_text_from_rich_format (fun _ => "")
    (PDict [("type", PStr "text"); ("text", PNum 5%Q)])
    = Raise TypeError.
Proof.
  reflexivity.
Qed.

(** ** The normalizer under the recursion limit *)

Section NormalizerLimit.

Variable py_str : nat -> pyval -> result string.
Variable log_debug : nat -> result unit.

Let extract := Limited.extract_text_from_rich_format py_str.
Let read_body := Limited.desc_text py_str log_debug.

Lemma limited_extract_PList (frames : nat) (elems : list pyval) :
  extract (S frames) (PList elems)
  = (text_parts <- Limited.each_text py_str frames elems ;;
     Ok (join " " text_parts)).
Proof. reflexivity. Qed.

Lemma limited_extract_PDict (frames : nat) (items : list (string * pyval)) :
  extract (S frames) (PDict items)
  = match dict_get items "content" with
    | Some (PList elems) => extract (S frames) (PList elems)
    | Some (PDict sub) =>
        text_parts <- Limited.each_text py_str frames
                        (map (fun kv => PStr (fst kv)) sub) ;;
        Ok (join " " text_parts)
    | Some (PStr s) =>
        text_parts <- Limited.each_text py_str frames (map PStr (chars s)) ;;
        Ok (join " " text_parts)
    | Some _ => Raise TypeError
    | None =>
        match dict_get items "text" with
        | Some (PStr s) => Ok s
        | Some _ => Raise TypeError
        | None => Ok ""
        end
    end.
Proof.
  unfold extract. cbn [Limited.extract_text_from_rich_format].
  rewrite !lookup_then_spec.
  destruct (dict_get items "content") as [v|] eqn:Ec.
  - rewrite (has_key_true _ _ _ Ec). destruct v; reflexivity.
  - rewrite (has_key_false _ _ Ec).
    destruct (dict_get items "text") as [v|] eqn:Et.
    + rewrite (has_key_true _ _ _ Et). destruct v; reflexivity.
    + rewrite (has_key_false _ _ Et). reflexivity.
Qed.

Lemma frames_needed_PDict (items : list (string * pyval)) :
  frames_needed (PDict items)
  = S match dict_get items "content" with
      | Some (PList elems) => deepest_of frames_needed elems
      | Some (PDict (_ :: _)) => 1
      | Some (PStr (String _ _)) => 1
      | _ => 0
      end.
Proof.
  transitivity
    (S (lookup_then "content"
          (fun v => match v with
                    | PList elems => deepest_of frames_needed elems
                    | PDict (_ :: _) => 1
                    | PStr (String _ _) => 1
                    | _ => 0
                    end) 0 items)).
  - reflexivity.
  - rewrite lookup_then_spec.
    destruct (dict_get items "content") as [[]|]; reflexivity.
Qed.

Lemma frames_needed_pos (data : pyval) : 1 <= frames_needed data.
Proof.
  destruct data; simpl; lia.
Qed.

(** On well-formed items the loop either has the frames for every
    item, and does what it does without a limit, or raises
    [RecursionError]. *)
Lemma limited_each_text (py0 : pyval -> string) (frames : nat)
    (elems : list pyval) :
  (forall data, well_formed data = true ->
     extract frames data
     = if frames_needed data <=? frames
       then extract_text_from_rich_format py0 data
       else Raise RecursionError) ->
  forallb well_formed elems = true ->
  Limited.each_text py_str frames elems
  = if deepest_of frames_needed elems <=? frames
    then each_text py0 elems
    else Raise RecursionError.
Proof.
  intros IHf. induction elems as [|x elems IH]; intros Hwf.
  - reflexivity.
  - simpl in Hwf. apply andb_true_iff in Hwf. destruct Hwf as [Hx Hwf].
    change (Limited.each_text py_str frames (x :: elems))
      with (t <- extract frames x ;;
            ts <- Limited.each_text py_str frames elems ;;
            Ok (t :: ts)).
    rewrite (IHf x Hx), (IH Hwf).
    change (deepest_of frames_needed (x :: elems))
      with (Nat.max (frames_needed x) (deepest_of frames_needed elems)).
    destruct (extract_well_formed py0 x Hx) as (out & Hout & _).
    cbn [each_text]. rewrite Hout.
    destruct (Nat.leb_spec (frames_needed x) frames) as [Hx'|Hx'];
      destruct (Nat.leb_spec (deepest_of frames_needed elems) frames)
        as [Hr|Hr];
      destruct (Nat.leb_spec
                  (Nat.max (frames_needed x)
                     (deepest_of frames_needed elems)) frames) as [Hm|Hm];
      try reflexivity; lia.
Qed.

(** On a well-formed tree the normalizer either has the frames the
    tree needs, and does what it does without a limit, or raises
    [RecursionError]. *)
Lemma limited_extract_tree (py0 : pyval -> string) (frames : nat) :
  forall data, well_formed data = true ->
    extract frames data
    = if frames_needed data <=? frames
      then extract_text_from_rich_format py0 data
      else Raise RecursionError.
Proof.
  induction frames as [|frames IHf]; intros data Hwf.
  - pose proof (frames_needed_pos data) as Hpos.
    destruct (Nat.leb_spec (frames_needed data) 0); [lia | reflexivity].
  - assert (Hlist : forall elems, forallb well_formed elems = true ->
              extract (S frames) (PList elems)
              = if S (deepest_of frames_needed elems) <=? S frames
                then extract_text_from_rich_format py0 (PList elems)
                else Raise RecursionError).
    { intros elems Helems.
      rewrite limited_extract_PList, (extract_PList py0).
      rewrite (limited_each_text py0 frames elems IHf Helems).
      change (S (deepest_of frames_needed elems) <=? S frames)
        with (deepest_of frames_needed elems <=? frames).
      now destruct (deepest_of frames_needed elems <=? frames). }
    destruct data as [s | items | elems | | b | q]; try discriminate.
    + reflexivity.
    + rewrite well_formed_PDict in Hwf.
      rewrite limited_extract_PDict, frames_needed_PDict,
        (extract_PDict py0).
      destruct (dict_get items "content") as [v|] eqn:Ec.
      * destruct v as [ | | elems | | | ]; try discriminate.
        apply andb_true_iff in Hwf. destruct Hwf as [_ Hwf].
        now apply Hlist.
      * destruct (dict_get items "text") as [v|] eqn:Et.
        -- destruct v as [s | | | | | ]; try discriminate. reflexivity.
        -- reflexivity.
    + now apply Hlist.
Qed.

(** What the reading of a body raises was raised in the handler, by
    [logger.debug] or by [str(description)]. *)
Lemma limited_desc_text_raise (frames : nat) (description : pyval) (e : exn) :
  read_body frames description = Raise e ->
  log_debug frames = Raise e \/ py_str frames description = Raise e.
Proof.
  unfold read_body, Limited.desc_text.
  destruct (truthy description); [|discriminate].
  match goal with
  | |- try_except ?body _ = _ -> _ => destruct body as [text | e0]
  end; [discriminate|].
  cbn [try_except]. destruct (log_debug frames) as [[] | e1]; cbn [bind].
  - intros H. now right.
  - intros H. injection H as ->. now left.
Qed.

(** A dict the normalizer raises on is read by the handler. *)
Lemma limited_desc_text_handler (frames : nat) (items : list (string * pyval))
    (e : exn) :
  truthy (PDict items) = true ->
  extract frames (PDict items) = Raise e ->
  read_body frames (PDict items)
  = (_ <- log_debug frames ;; py_str frames (PDict items)).
Proof.
  intros Htruthy Hraise. unfold read_body, Limited.desc_text.
  rewrite Htruthy. fold extract. rewrite Hraise. reflexivity.
Qed.

Lemma limited_desc_text_extract (frames : nat) (data : pyval) (out : string) :
  (forall elems, data <> PList elems) ->
  well_formed data = true ->
  extract frames data = Ok out ->
  read_body frames data = Ok out.
Proof.
  intros Hlist Hwf Hout. unfold read_body, Limited.desc_text.
  destruct data as [s | items | elems | | b | q]; try discriminate.
  - destruct frames as [|frames]; [discriminate|].
    injection Hout as <-. simpl.
    destruct (String.eqb_spec s ""); [now subst | reflexivity].
  - destruct items as [|kv items].
    + destruct frames as [|frames]; [discriminate|].
      simpl. rewrite <- Hout. reflexivity.
    + cbn [truthy]. fold extract. rewrite Hout. reflexivity.
  - now destruct (Hlist elems).
Qed.


End NormalizerLimit.

(** A dict that has both keys: the text beside the content is dropped. *)
Lemma normalizer_drops_text_beside_content :
  Limited.extract_text_from_rich_format (fun _ _ => Ok "") 2
    (PDict [("text", PStr "hello"); ("content", PList [])])
  = Ok "".
Proof.
  reflexivity.
Qed.

(** A body nested deeper than the frames that are left, which [str]
    cannot print either: the classifier raises. *)
Lemma classifier_raises_on_deep_body :
  let body := PDict [("content", PList [PDict [("content", PList [])]])] in
  let py_str := fun (_ : nat) (_ : pyval) => @Raise string RecursionError in
  let log_debug := fun (_ : nat) => Ok tt in
  Limited.extract_text_from_rich_format py_str 1 body = Raise RecursionError
  /\ Limited.is_pixel_related_ticket py_str log_debug Str.ascii_lower 1
       (Some "Pixel not firing") body
     = Raise RecursionError.
Proof.
  split; reflexivity.
Qed.



(* ================================================================= *)
(** * Further properties *)

(** ** Substrings *)

Lemma prefix_split (a b : string) :
  String.prefix a b = true <-> exists post, b = (a ++ post)%string.
Proof.
  revert b. induction a as [|c a IH]; intros b.
  - split; [|now destruct b]. intros _. now exists b.
  - destruct b as [|d b]; simpl.
    + split; [discriminate | intros [post H]; discriminate].
    + destruct (ascii_dec c d) as [<- | Hne].
      * rewrite IH. split; intros [post H]; exists post; congruence.
      * split; [discriminate|]. intros [post H]. congruence.
Qed.

(** [needle in hay] holds exactly when [hay] is some text, the needle,
    and some text. *)
Lemma str_in_split (needle hay : string) :
  str_in needle hay = true
  <-> exists pre post, hay = (pre ++ needle ++ post)%string.
Proof.
  induction hay as [|c hay IH].
  - cbn [str_in]. rewrite orb_false_r, prefix_split. split.
    + intros [post H]. now exists "", post.
    + intros (pre & post & H). destruct pre; [now exists post|discriminate].
  - cbn [str_in]. rewrite orb_true_iff, prefix_split, IH. split.
    + intros [[post H] | (pre & post & H)].
      * now exists "", post.
      * exists (String c pre), post. simpl. congruence.
    + intros (pre & post & H). destruct pre as [|d pre].
      * left. now exists post.
      * right. exists pre, post. simpl in H. congruence.
Qed.

Lemma str_in_trans (a b text : string) :
  str_in a b = true -> str_in b text = true -> str_in a text = true.
Proof.
  rewrite !str_in_split.
  intros (p1 & q1 & ->) (p2 & q2 & ->).
  exists (p2 ++ p1)%string, (q1 ++ q2)%string.
  now rewrite !append_assoc.
Qed.

Lemma any_in_hit (words : list string) (text : string) :
  any_in words text = true
  <-> exists w, In w words /\ str_in w text = true.
Proof. unfold any_in. apply existsb_exists. Qed.

(** A text that contains a word containing one of [words] contains one
    of [words]. *)
Lemma any_in_trans (words : list string) (w text : string) :
  any_in words w = true -> str_in w text = true -> any_in words text = true.
Proof.
  rewrite !any_in_hit. intros (k & Hk & Hkw) Hw.
  exists k. split; [assumption | now apply (str_in_trans k w)].
Qed.

Lemma any_in_incl (small big : list string) (text : string) :
  incl small big -> any_in small text = true -> any_in big text = true.
Proof.
  rewrite !any_in_hit. intros Hincl (k & Hk & Hhit). exists k. auto.
Qed.

Lemma first_in_some (words : list string) (text w : string) :
  first_in words text = Some w -> In w words /\ str_in w text = true.
Proof.
  unfold first_in. intros H. apply find_some in H. exact H.
Qed.

Lemma count_in_pos (words : list string) (text : string) :
  0 < count_in words text <-> any_in words text = true.
Proof.
  unfold count_in. rewrite any_in_hit. split.
  - destruct (filter _ words) as [|w l] eqn:E; simpl; [lia|]. intros _.
    assert (Hin : In w (filter (fun w => str_in w text) words))
      by (rewrite E; now left).
    apply filter_In in Hin. now exists w.
  - intros (w & Hw & Hhit).
    assert (Hin : In w (filter (fun w => str_in w text) words))
      by (apply filter_In; auto).
    destruct (filter _ words); [destruct Hin | simpl; lia].
Qed.

(** ** More on the rule engine *)

Section RuleEngineMore.

Variable lower : string -> string.
Variable py_str : pyval -> string.

Let classify := is_pixel_related_ticket lower py_str.

Lemma classify_some (summary : string) (description : pyval) :
  summary <> "" ->
  classify (Some summary) description
  = Ok (classify_text (ticket_text lower py_str summary description)).
Proof.
  intros Hne. unfold classify, is_pixel_related_ticket, ticket_text, body_text.
  destruct (String.eqb_spec summary ""); [contradiction|].
  destruct (desc_text_total py_str description) as [desc ->]. reflexivity.
Qed.

Lemma classify_text_outcome (text : string) :
  In (classify_text text) rule_outcomes.
Proof.
  unfold classify_text, rule_outcomes. rewrite !in_app_iff.
  destruct (first_in exclusions text) as [e|] eqn:He.
  { apply first_in_some in He. right. left.
    apply in_map_iff. exists e. tauto. }
  destruct (first_in high_confidence_keywords text) as [k|] eqn:Hk.
  { apply first_in_some in Hk. right. right. left.
    apply in_map_iff. exists k. tauto. }
  destruct (if str_in "pixel" text then first_in pixel_contexts text
            else None) as [c|] eqn:Hc.
  { destruct (str_in "pixel" text); [|discriminate].
    apply first_in_some in Hc. right. right. right. left.
    apply in_map_iff. exists c. tauto. }
  right. right. right. right.
  destruct (any_in tracking_keywords text && any_in action_keywords text);
    [now left|].
  destruct (str_in "conversion" text && any_in web_terms text); simpl; tauto.
Qed.

Lemma classify_outcome (summary : option string) (description : pyval) :
  exists verdict reason,
    classify summary description = Ok (verdict, reason)
    /\ In (verdict, reason) rule_outcomes.
Proof.
  destruct summary as [summary|].
  - destruct (String.eqb_spec summary "") as [-> | Hne].
    + exists false, "no_summary". split; [reflexivity | now left].
    + rewrite (classify_some _ _ Hne).
      destruct (classify_text _) as [v r] eqn:E.
      exists v, r. split; [reflexivity|]. rewrite <- E.
      apply classify_text_outcome.
  - exists false, "no_summary". split; [reflexivity | now left].
Qed.

(** X2.  The confidence the table gives to the rule engine's reason is
    never above 0.85: it is between 0.5 and 0.85 for a [True] verdict,
    and 0 (for [no_match]) or 0.5 (for [no_summary] and the exclusions)
    for a [False] verdict. *)
Theorem rule_confidence_range (summary : option string) (description : pyval) :
  exists verdict reason,
    classify summary description = Ok (verdict, reason)
    /\ (verdict = true ->
        (0.5 <= estimate_rule_confidence reason <= 0.85)%Q)
    /\ (verdict = false ->
        if String.eqb reason "no_match"
        then estimate_rule_confidence reason = 0.0%Q
        else estimate_rule_confidence reason = 0.5%Q).
Proof.
  destruct (classify_outcome summary description) as (v & r & Hr & Hin).
  exists v, r. split; [assumption|].
  assert (Hall : Forall (fun vr =>
            (fst vr = true ->
             (0.5 <= estimate_rule_confidence (snd vr) <= 0.85)%Q)
            /\ (fst vr = false ->
                if String.eqb (snd vr) "no_match"
                then estimate_rule_confidence (snd vr) = 0.0%Q
                else estimate_rule_confidence (snd vr) = 0.5%Q))
            rule_outcomes).
  { unfold rule_outcomes. cbn [map List.app exclusions
      high_confidence_keywords pixel_contexts].
    repeat (apply Forall_cons;
            [split; intros E; first [discriminate E | vm_compute; try reflexivity;
              split; discriminate]|]).
    apply Forall_nil. }
  rewrite Forall_forall in Hall. exact (Hall _ Hin).
Qed.

End RuleEngineMore.

Section RuleEngineKeywords.

Variable lower : string -> string.
Variable py_str : pyval -> string.

(** The substrings without one of which no ticket is flagged. *)
Let needed : list string :=
  [ "pixel"; "tag"; "tracking"; "javascript"; "js"; "piggyback";
    "conversion" ].

(** X3.  A ticket is flagged only if its lowercased text contains one of
    [pixel], [tag], [tracking], [javascript], [js], [piggyback] and
    [conversion]. *)
Theorem flagged_needs_keyword
    (summary : string) (description : pyval) (reason : string) :
  is_pixel_related_ticket lower py_str (Some summary) description
    = Ok (true, reason) ->
  any_in [ "pixel"; "tag"; "tracking"; "javascript"; "js"; "piggyback";
           "conversion" ]
         (ticket_text lower py_str summary description) = true.
Proof.
  intros H.
  destruct (String.eqb_spec summary "") as [-> | Hne]; [discriminate H|].
  rewrite (classify_some lower py_str _ _ Hne) in H.
  injection H as H. revert H.
  set (text := ticket_text lower py_str summary description).
  fold needed. unfold classify_text.
  destruct (first_in exclusions text); [discriminate|].
  destruct (first_in high_confidence_keywords text) as [k|] eqn:Hk.
  { intros _. apply first_in_some in Hk. destruct Hk as [Hin Hhit].
    apply (any_in_trans needed k); [|assumption].
    assert (Hall : forallb (any_in needed) high_confidence_keywords = true)
      by (vm_compute; reflexivity).
    rewrite forallb_forall in Hall. now apply Hall. }
  destruct (str_in "pixel" text) eqn:Hpixel.
  { intros _. apply any_in_hit. exists "pixel". split; [now left | assumption]. }
  destruct (any_in tracking_keywords text) eqn:Htracking.
  { intros _. apply (any_in_incl tracking_keywords); [|assumption].
    intros w Hw. simpl in Hw. unfold needed. simpl. tauto. }
  cbn [andb].
  destruct (str_in "conversion" text) eqn:Hconv; [|discriminate].
  intros _. apply any_in_hit. exists "conversion".
  split; [simpl; tauto | assumption].
Qed.

(** X4.  The reason [pixel_context:0 conversions] is never returned:
    a text that contains [0 conversions] contains [conversion], which
    comes earlier in the context list. *)
Theorem zero_conversions_code_unreachable
    (summary : option string) (description : pyval) :
  exists verdict reason,
    is_pixel_related_ticket lower py_str summary description
      = Ok (verdict, reason)
    /\ reason <> "pixel_context:0 conversions".
Proof.
  destruct summary as [summary|];
    [|exists false, "no_summary"; split; [reflexivity | discriminate]].
  destruct (String.eqb_spec summary "") as [-> | Hne];
    [exists false, "no_summary"; split; [reflexivity | discriminate]|].
  rewrite (classify_some lower py_str _ _ Hne).
  set (text := ticket_text lower py_str summary description).
  destruct (classify_text text) as [v r] eqn:E.
  exists v, r. split; [reflexivity|]. revert E. unfold classify_text.
  destruct (first_in exclusions text); [intros [= _ <-]; discriminate|].
  destruct (first_in high_confidence_keywords text);
    [intros [= _ <-]; discriminate|].
  destruct (if str_in "pixel" text then first_in pixel_contexts text
            else None) as [c|] eqn:Hc.
  - intros [= _ <-] Heq. injection Heq as ->.
    destruct (str_in "pixel" text); [|discriminate].
    assert (Hconv : str_in "conversion" text = true).
    { apply first_in_some in Hc. destruct Hc as [_ Hhit].
      apply (str_in_trans "conversion" "0 conversions"); [reflexivity|assumption]. }
    unfold first_in in Hc. cbn [pixel_contexts find] in Hc.
    destruct (str_in "confirmation" text); [discriminate|].
    rewrite Hconv in Hc. discriminate.
  - destruct (any_in tracking_keywords text && any_in action_keywords text);
      [intros [= _ <-]; discriminate|].
    destruct (str_in "conversion" text && any_in web_terms text);
      intros [= _ <-]; discriminate.
Qed.

End RuleEngineKeywords.

Lemma flagged_needs_keyword_witness :
  any_in [ "pixel"; "tag"; "tracking"; "javascript"; "js"; "piggyback";
           "conversion" ]
         (ticket_text ascii_lower (fun _ => "")
            "Verification on Universal Tags" (PStr "")) = true.
Proof.
  apply (flagged_needs_keyword ascii_lower (fun _ => "")
           "Verification on Universal Tags" (PStr "") "high:universal tag").
  reflexivity.
Defined.

(** ** Case *)

Lemma lower_ascii_idempotent (c : ascii) :
  lower_ascii (lower_ascii c) = lower_ascii c.
Proof.
  destruct c as [[] [] [] [] [] [] [] []]; reflexivity.
Qed.

Lemma ascii_lower_idempotent (s : string) :
  ascii_lower (ascii_lower s) = ascii_lower s.
Proof.
  induction s as [|c s IH]; simpl; [reflexivity|].
  now rewrite lower_ascii_idempotent, IH.
Qed.

Lemma ascii_lower_app (a b : string) :
  ascii_lower (a ++ b) = (ascii_lower a ++ ascii_lower b)%string.
Proof.
  induction a as [|c a IH]; simpl; [reflexivity | now rewrite IH].
Qed.

Lemma ascii_lower_empty (s : string) : ascii_lower s = "" <-> s = "".
Proof.
  destruct s; simpl; split; congruence.
Qed.

(** X5.  Classification is case-insensitive on ASCII text: two tickets
    whose titles and string bodies differ only by the case of their
    letters get the same verdict and the same reason; in particular a
    ticket and its lowercased copy do. *)
Theorem classification_ignores_case (py_str : pyval -> string)
    (summary1 summary2 body1 body2 : string) :
  ascii_lower summary1 = ascii_lower summary2 ->
  ascii_lower body1 = ascii_lower body2 ->
  is_pixel_related_ticket ascii_lower py_str (Some summary1) (PStr body1)
  = is_pixel_related_ticket ascii_lower py_str (Some summary2) (PStr body2).
Proof.
  intros Hs Hb.
  assert (Htext : forall s b,
            is_pixel_related_ticket ascii_lower py_str (Some s) (PStr b)
            = if String.eqb (ascii_lower s) "" then Ok (false, "no_summary")
              else Ok (classify_text
                         (ascii_lower s ++ " " ++ ascii_lower b)%string)).
  { intros s b. unfold is_pixel_related_ticket, desc_text. cbn [truthy].
    destruct (String.eqb_spec s "") as [-> | Hne]; [reflexivity|].
    destruct (String.eqb_spec (ascii_lower s) "") as [E | _].
    { exfalso. apply Hne. now apply ascii_lower_empty. }
    assert (Hdesc : (if negb (String.eqb b "")
                     then try_except (Ok b)
                            (fun _ => Ok (if negb (String.eqb b "")
                                          then py_str (PStr b) else ""))
                     else Ok "") = Ok b).
    { destruct (String.eqb_spec b "") as [-> | _]; reflexivity. }
    rewrite Hdesc. cbn [bind].
    now rewrite !ascii_lower_app. }
  now rewrite !Htext, Hs, Hb.
Qed.

Lemma classification_ignores_case_witness :
  is_pixel_related_ticket ascii_lower (fun _ => "")
    (Some "PIXEL Not Firing") (PStr "On The Confirmation PAGE")
  = is_pixel_related_ticket ascii_lower (fun _ => "")
      (Some "pixel not firing") (PStr "on the confirmation page").
Proof.
  apply classification_ignores_case; reflexivity.
Defined.

(** ** Features and the rule engine *)

Lemma desc_text_PStr (py_str : pyval -> string) (body : string) :
  desc_text py_str (PStr body) = Ok body.
Proof.
  unfold desc_text. cbn [truthy].
  destruct (String.eqb_spec body "") as [-> | _]; reflexivity.
Qed.

Section FeatureFacts.

Variable lower : string -> string.
Variable split : string -> list string.
Variable py_str : pyval -> string.

Lemma classify_string_body (summary body : string) :
  summary <> "" ->
  is_pixel_related_ticket lower py_str (Some summary) (PStr body)
  = Ok (classify_text (lower (summary ++ " " ++ body)%string)).
Proof.
  intros Hne. rewrite (classify_some lower py_str _ _ Hne).
  unfold ticket_text, body_text. now rewrite desc_text_PStr.
Qed.

(** X6.  The feature [has_exclusions] and the rule engine agree one
    way: when the feature extractor counts an exclusion indicator in a
    ticket with a string body, the rule engine rejects that ticket with
    an [excluded:] reason. *)
Theorem exclusion_indicator_means_excluded (summary body : string) :
  summary <> "" ->
  0 < Feature.has_exclusions (extract_features lower split summary (Some body)) ->
  exists exclusion,
    In exclusion exclusions
    /\ is_pixel_related_ticket lower py_str (Some summary) (PStr body)
       = Ok (false, ("excluded:" ++ exclusion)%string).
Proof.
  intros Hne Hcount. rewrite (classify_string_body _ _ Hne).
  cbn [extract_features Feature.has_exclusions or_empty] in Hcount.
  set (text := lower (summary ++ " " ++ body)%string) in *.
  unfold count_exclusion_indicators in Hcount.
  apply count_in_pos, any_in_hit in Hcount. destruct Hcount as (w & Hw & Hhit).
  assert (Hin : In w exclusions) by (simpl in Hw |- *; tauto).
  destruct (first_in_hit _ _ _ Hin Hhit) as [e He].
  exists e. split; [now apply first_in_some in He|].
  unfold classify_text. now rewrite He.
Qed.

(** X7.  The features of a ticket with a string body bear out the
    reason of the rule engine: a flagged ticket has no exclusion
    indicator; [pixel_context:] comes with [has_pixel];
    [medium:tracking_action] with [has_tracking] and an action word;
    [medium:conversion_web] with [has_conversion] and a web or tracking
    term. *)
Theorem reason_agrees_with_features
    (summary body : string) (verdict : bool) (reason : string) :
  is_pixel_related_ticket lower py_str (Some summary) (PStr body)
    = Ok (verdict, reason) ->
  let f := extract_features lower split summary (Some body) in
  (verdict = true -> Feature.has_exclusions f = 0)
  /\ (String.prefix "pixel_context:" reason = true ->
      Feature.has_pixel f = true)
  /\ (reason = "medium:tracking_action" ->
      Feature.has_tracking f = true /\ 0 < Feature.action_words f)
  /\ (reason = "medium:conversion_web" ->
      Feature.has_conversion f = true
      /\ (Feature.web_related f = true \/ Feature.has_tracking f = true)).
Proof.
  intros H f.
  destruct (String.eqb_spec summary "") as [-> | Hne].
  { cbn in H. revert H. intros [= <- <-]. repeat split; discriminate. }
  rewrite (classify_string_body _ _ Hne) in H.
  subst f. cbn [extract_features Feature.has_exclusions Feature.has_pixel
    Feature.has_tracking Feature.action_words Feature.has_conversion
    Feature.web_related or_empty].
  set (text := lower (summary ++ " " ++ body)%string) in *.
  injection H as H. revert H. unfold classify_text.
  assert (Hexcl : first_in exclusions text = None ->
                  count_exclusion_indicators text = 0).
  { intros He.
    destruct (count_exclusion_indicators text) as [|n] eqn:E; [reflexivity|].
    assert (Hpos : 0 < count_exclusion_indicators text) by lia.
    unfold count_exclusion_indicators in Hpos.
    apply count_in_pos, any_in_hit in Hpos. destruct Hpos as (w & Hw & Hhit).
    assert (Hin : In w exclusions) by (simpl in Hw |- *; tauto).
    destruct (first_in_hit _ _ _ Hin Hhit) as [e' He']. congruence. }
  assert (Haction : any_in action_keywords text = true ->
                    0 < count_action_words text).
  { intros Ha. unfold count_action_words. apply count_in_pos.
    apply (any_in_incl action_keywords); [|assumption].
    intros w Hw. simpl in Hw |- *. tauto. }
  assert (Hweb : any_in web_terms text = true ->
                 any_in [ "web"; "website"; "page" ] text = true
                 \/ any_in [ "tracking"; "tag"; "javascript"; "js" ] text = true).
  { intros Hw. apply any_in_hit in Hw. destruct Hw as (w & Hw & Hhit).
    simpl in Hw. destruct Hw as [<- | [<- | [<- | [<- | []]]]];
      [left | left | left | right];
      apply any_in_hit; eexists; (split; [|exact Hhit]); simpl; tauto. }
  destruct (first_in exclusions text) as [e|] eqn:He.
  { intros [= <- <-]. split; [|split; [|split]]; intros Hx;
      first [discriminate Hx | cbn in Hx; discriminate Hx]. }
  specialize (Hexcl eq_refl).
  destruct (first_in high_confidence_keywords text) as [k|].
  { intros [= <- <-]. split; [|split; [|split]]; intros Hx;
      first [assumption | discriminate Hx | cbn in Hx; discriminate Hx]. }
  destruct (if str_in "pixel" text then first_in pixel_contexts text
            else None) as [c|] eqn:Hc.
  { intros [= <- <-]. destruct (str_in "pixel" text); [|discriminate].
    split; [|split; [|split]]; intros Hx;
      first [assumption | reflexivity | discriminate Hx
            | cbn in Hx; discriminate Hx]. }
  destruct (any_in tracking_keywords text) eqn:Htracking;
    destruct (any_in action_keywords text) eqn:Hact; cbn [andb].
  1: { intros [= <- <-]. split; [|split; [|split]]; intros Hx;
         first [assumption | discriminate Hx | idtac].
       split; [exact Htracking | now apply Haction]. }
  all: destruct (str_in "conversion" text) eqn:Hconv; cbn [andb];
    [destruct (any_in web_terms text) eqn:Hw|];
    intros [= <- <-]; (split; [|split; [|split]]); intros Hx;
    first [assumption | discriminate Hx | idtac].
  all: split; [reflexivity | now apply Hweb].
Qed.

End FeatureFacts.

Lemma exclusion_indicator_means_excluded_witness :
  exists exclusion,
    In exclusion exclusions
    /\ is_pixel_related_ticket ascii_lower (fun _ => "")
         (Some "Linear Ads delivery report with pixel mentioned") (PStr "")
       = Ok (false, ("excluded:" ++ exclusion)%string).
Proof.
  apply (exclusion_indicator_means_excluded ascii_lower ascii_split).
  - discriminate.
  - vm_compute. lia.
Defined.

Lemma reason_agrees_with_features_witness :
  let f := extract_features ascii_lower ascii_split
             "Please install the tracking snippet" (Some "on the landing site") in
  Feature.has_tracking f = true /\ 0 < Feature.action_words f.
Proof.
  intros f.
  refine (proj1 (proj2 (proj2
    (reason_agrees_with_features ascii_lower ascii_split (fun _ => "")
       "Please install the tracking snippet" "on the landing site"
       true "medium:tracking_action" eq_refl))) eq_refl).
Defined.

(** ** More on the fusion policy *)

Section FusionMore.

Variable lower : string -> string.
Variables Model Vectorizer Vec : Type.
Variable transform : Vectorizer -> string -> Vec.
Variable predict_proba : Model -> Vec -> Q * Q.
Variable Features : Type.
Variable extract_features : string -> option string -> Features.

(** X8.  With a model loaded the predicted labels play no part: the
    final verdict and the combined confidence are the same whatever the
    rule verdict and whatever class the model predicts; they depend on
    the two confidences only. *)
Theorem hybrid_ignores_predicted_labels
    (m : Model) (v : option Vectorizer) (predict1 predict2 : Model -> Vec -> bool)
    (summary : string) (description : option string)
    (rule_result1 rule_result2 : bool) (rule_confidence : Q) :
  let self := {| model := Some m; vectorizer := v |} in
  fst (hybrid_detection lower transform predict1 predict_proba
         extract_features self summary description
         rule_result1 rule_confidence)
  = fst (hybrid_detection lower transform predict2 predict_proba
           extract_features self summary description
           rule_result2 rule_confidence).
Proof.
  intros self. unfold hybrid_detection, predict_ml. simpl.
  destruct v as [v|]; [|reflexivity].
  match goal with
  | |- context [Qgtb ?c 0.8] => destruct (Qgtb c 0.8)
  end; reflexivity.
Qed.

Variable predict : Model -> Vec -> bool.

Let predict_ml' := predict_ml lower transform predict predict_proba.
Let hybrid_detection' :=
  hybrid_detection lower transform predict predict_proba extract_features.

Lemma hybrid_combined (m : Model) (v : option Vectorizer)
    (summary : string) (description : option string)
    (rule_result : bool) (rule_confidence : Q) :
  let self := {| model := Some m; vectorizer := v |} in
  let ml_confidence := snd (predict_ml' self summary description) in
  let combined :=
    if Qgtb ml_confidence 0.8
    then (rule_confidence * 0.4 + ml_confidence * 0.6)%Q
    else (rule_confidence * 0.6 + ml_confidence * 0.4)%Q in
  fst (hybrid_detection' self summary description rule_result rule_confidence)
  = (Qgtb combined 0.5, combined).
Proof.
  intros self ml_confidence combined. subst combined ml_confidence.
  unfold hybrid_detection', hybrid_detection. fold predict_ml'.
  destruct (predict_ml' self summary description) as [p c]. simpl.
  destruct (Qgtb c 0.8); reflexivity.
Qed.


(** X10.  With a model loaded, a ticket whose rule confidence is 0.5
    (the exclusions, [no_summary] and every reason the table does not
    know) is flagged only if the model confidence exceeds 0.5, and it
    is flagged whenever the model confidence is at least 0.501; a
    ticket whose rule confidence is 0 ([no_match]) is flagged only if
    the model confidence exceeds 5/6, and whenever it is at least 0.84.
    The model confidence is the probability of the class the model
    predicts, whichever it is.  The margins leave out the confidences
    next to the thresholds, where the rounding of the code's floating
    point decides. *)
Theorem hybrid_thresholds
    (m : Model) (v : option Vectorizer)
    (summary : string) (description : option string) (rule_result : bool) :
  let self := {| model := Some m; vectorizer := v |} in
  let ml_confidence := snd (predict_ml' self summary description) in
  let flagged rule_confidence :=
    fst (fst (hybrid_detection' self summary description rule_result
                rule_confidence)) in
  (flagged 0.5%Q = true -> (0.5 < ml_confidence)%Q)
  /\ ((0.501 <= ml_confidence)%Q -> flagged 0.5%Q = true)
  /\ (flagged 0.0%Q = true -> (5 # 6 < ml_confidence)%Q)
  /\ ((0.84 <= ml_confidence)%Q -> flagged 0.0%Q = true).
Proof.
  intros self ml_confidence flagged. subst flagged ml_confidence self.
  cbv beta. rewrite !hybrid_combined. cbn [fst].
  set (ml_confidence := snd (predict_ml' _ summary description)).
  destruct (Qgtb ml_confidence 0.8) eqn:E; rewrite !Qgtb_true.
  - apply Qgtb_true in E. repeat split; intros; lra.
  - apply Qgtb_false in E. repeat split; intros; lra.
Qed.

End FusionMore.

(** ** Enhanced monitor *)

Section EnhancedFacts.

Variable lower : string -> string.
Variable split : string -> list string.
Variable py_str : pyval -> string.
Variables Model Vectorizer Vec : Type.
Variable transform : Vectorizer -> string -> Vec.
Variable predict : Model -> Vec -> bool.
Variable predict_proba : Model -> Vec -> Q * Q.

Let enhanced :=
  enhanced_is_pixel_related_ticket lower split py_str transform predict
    predict_proba.
Let process :=
  process_ticket_with_learning lower split py_str transform predict
    predict_proba.
Let check :=
  check_for_enhanced_pixel_tickets lower split py_str transform predict
    predict_proba.

Lemma hybrid_detection_py_raises (self : learning_system Model Vectorizer)
    (summary : option string) (description : pyval)
    (rule_result : bool) (rule_confidence : Q) :
  unfit summary description ->
  hybrid_detection_py lower split transform predict predict_proba self
    summary description rule_result rule_confidence = Raise TypeError.
Proof.
  unfold hybrid_detection_py. intros [-> | [Htruthy Hstr]]; [reflexivity|].
  destruct summary as [summary|]; [|reflexivity].
  destruct description; try (now rewrite Htruthy).
  now destruct (Hstr s).
Qed.

Lemma hybrid_detection_py_cases (summary : option string)
    (description : pyval) :
  unfit summary description
  \/ (~ unfit summary description
      /\ exists s d,
           summary = Some s
           /\ forall self rule_result rule_confidence,
                hybrid_detection_py lower split transform predict
                  predict_proba self summary description rule_result
                  rule_confidence
                = Ok (hybrid_detection lower transform predict predict_proba
                        (extract_features lower split) self s d rule_result
                        rule_confidence)).
Proof.
  destruct summary as [s|]; [|left; now left].
  destruct description as [body | items | elems | | b | q].
  - right. split; [intros [H | [_ H]]; [discriminate | now destruct (H body)]|].
    exists s, (Some body). split; reflexivity.
  - destruct items as [|kv items];
      [|left; right; split; [reflexivity | discriminate]].
    right. split; [intros [H | [H _]]; discriminate|].
    exists s, None. split; reflexivity.
  - destruct elems as [|x elems];
      [|left; right; split; [reflexivity | discriminate]].
    right. split; [intros [H | [H _]]; discriminate|].
    exists s, None. split; reflexivity.
  - right. split; [intros [H | [H _]]; discriminate|].
    exists s, None. split; reflexivity.
  - destruct b; [left; right; split; [reflexivity | discriminate]|].
    right. split; [intros [H | [H _]]; discriminate|].
    exists s, None. split; reflexivity.
  - destruct (negb (Qeq_bool q 0)) eqn:Hq;
      [left; right; split; [exact Hq | discriminate]|].
    right. split; [intros [H | [H _]]; [discriminate | simpl in H; congruence]|].
    exists s, None. split; [reflexivity|]. intros self rb rc.
    unfold hybrid_detection_py. cbn [truthy]. now rewrite Hq.
Qed.

Lemma hybrid_detection_analysis (self : learning_system Model Vectorizer)
    (summary : string) (description : option string)
    (rule_result : bool) (rule_confidence : Q) :
  let r := hybrid_detection lower transform predict predict_proba
             (extract_features lower split) self summary description
             rule_result rule_confidence in
  rule_based (snd r) = (rule_result, rule_confidence)
  /\ (model self = None ->
      fst (fst r) = rule_result /\ snd (fst r) = rule_confidence).
Proof.
  unfold hybrid_detection.
  destruct (predict_ml _ _ _ _ _ _ _) as [p c].
  destruct (model self).
  - destruct (Qgtb c 0.8); split; try reflexivity; discriminate.
  - split; [reflexivity|]. intros _. split; reflexivity.
Qed.

Lemma enhanced_raise_unfit
    (self : learning_system Model Vectorizer) (t : ticket) :
  unfit (tk_summary t) (tk_description t) ->
  enhanced self (tk_summary t) (tk_description t) = Raise TypeError.
Proof.
  intros Hunfit. unfold enhanced, enhanced_is_pixel_related_ticket.
  destruct (classify_outcome lower py_str (tk_summary t) (tk_description t))
    as (v & r & Hr & _).
  rewrite Hr. cbn [bind].
  now rewrite (hybrid_detection_py_raises _ _ _ _ _ Hunfit).
Qed.


(** X12.  With a model and a vectorizer loaded, an excluded ticket is
    flagged all the same whenever the model confidence, the larger of
    the class probabilities, is at least 0.501: the enhanced detection
    returns the [excluded:] reason with a [True] verdict.  It is flagged
    only if the model confidence exceeds 0.5; the margin leaves out the
    confidences next to 0.5, where the rounding of the code's floating
    point decides. *)
Theorem hybrid_overrides_exclusion
    (m : Model) (v : Vectorizer) (summary body term : string) :
  summary <> "" ->
  In term exclusions ->
  str_in term (lower (summary ++ " " ++ body)%string) = true ->
  let self := {| model := Some m; vectorizer := Some v |} in
  let ml_confidence :=
    py_max (predict_proba m
              (transform v (lower (summary ++ " " ++ body)%string))) in
  exists exclusion final combined a,
    enhanced self (Some summary) (PStr body)
      = Ok (final, ("excluded:" ++ exclusion)%string, combined, a)
    /\ (final = true -> (0.5 < ml_confidence)%Q)
    /\ ((0.501 <= ml_confidence)%Q -> final = true).
Proof.
  intros Hne Hin Hhit self ml_confidence.
  destruct (first_in_hit _ _ _ Hin Hhit) as [e Hfirst].
  assert (Hrule : is_pixel_related_ticket lower py_str (Some summary) (PStr body)
                  = Ok (false, ("excluded:" ++ e)%string)).
  { rewrite (classify_string_body lower py_str _ _ Hne).
    unfold classify_text. now rewrite Hfirst. }
  assert (He : In e exclusions) by (now apply first_in_some in Hfirst).
  assert (Hconf : estimate_rule_confidence ("excluded:" ++ e)%string = 0.5%Q).
  { assert (Hall : Forall (fun e =>
              estimate_rule_confidence ("excluded:" ++ e)%string = 0.5%Q)
              exclusions) by (repeat constructor).
    rewrite Forall_forall in Hall. now apply Hall. }
  unfold enhanced, enhanced_is_pixel_related_ticket.
  rewrite Hrule. cbn [bind]. rewrite Hconf.
  unfold hybrid_detection_py. cbn [bind].
  pose proof (hybrid_combined lower _ _ _ transform predict_proba _
                (extract_features lower split) predict m (Some v) summary
                (Some body) false 0.5%Q) as Hc.
  cbv zeta in Hc.
  change (snd (predict_ml lower transform predict predict_proba
                 {| model := Some m; vectorizer := Some v |} summary
                 (Some body)))
    with ml_confidence in Hc.
  fold self in Hc.
  destruct (hybrid_detection _ _ _ _ _ _ _ _ _ _) as [[final combined] a].
  exists e, final, combined, a. split; [reflexivity|].
  cbn [fst] in Hc. injection Hc as -> _.
  destruct (Qgtb ml_confidence 0.8) eqn:E; rewrite !Qgtb_true.
  - apply Qgtb_true in E. split; intros; lra.
  - apply Qgtb_false in E. split; intros; lra.
Qed.

Lemma check_loop_raise (self : learning_system Model Vectorizer)
    (before after : list ticket) (bad : ticket) (e : exn)
    (alerted : list string) (found : nat) :
  process self bad = Raise e ->
  let r := check_loop lower split py_str transform predict predict_proba
             self before alerted found in
  check_loop lower split py_str transform predict predict_proba self
    (before ++ bad :: after) alerted found
  = {| alerts := alerts r;
       pixel_tickets_found := pixel_tickets_found r;
       failed := true |}.
Proof.
  intros Hbad. revert alerted found.
  induction before as [|t before IH]; intros alerted found; simpl.
  - fold process. now rewrite Hbad.
  - fold process. destruct (process self t) as [[is_pixel c] | e'];
      [|reflexivity].
    destruct is_pixel; apply IH.
Qed.

(** X13.  One ticket the enhanced detection cannot take (a title that
    is [None], or a rich-text body) ends the whole check: the check ends
    in its error handler, and its alerts and its count are those of the
    tickets before that one; no ticket after it is looked at. *)
Theorem check_stops_at_rich_text
    (self : learning_system Model Vectorizer)
    (before after : list ticket) (bad : ticket) :
  unfit (tk_summary bad) (tk_description bad) ->
  let r := check self (before ++ bad :: after) in
  failed r = true
  /\ alerts r = alerts (check self before)
  /\ pixel_tickets_found r = pixel_tickets_found (check self before).
Proof.
  intros Hunfit r.
  assert (Hbad : process self bad = Raise TypeError).
  { unfold process, process_ticket_with_learning.
    pose proof (enhanced_raise_unfit self bad Hunfit) as H.
    unfold enhanced in H. now rewrite H. }
  subst r. unfold check, check_for_enhanced_pixel_tickets.
  rewrite (check_loop_raise self before after bad TypeError [] 0 Hbad).
  repeat split.
Qed.

End EnhancedFacts.

Lemma hybrid_overrides_exclusion_witness :
  let self := {| model := Some tt; vectorizer := Some tt |} in
  exists exclusion final combined a,
    enhanced_is_pixel_related_ticket ascii_lower ascii_split (fun _ => "")
      (fun (_ : unit) text => text) (fun (_ : unit) (_ : string) => false)
      (fun (_ : unit) (_ : string) => (0.9%Q, 0.1%Q))
      self (Some "User sync pixel update") (PStr "")
    = Ok (final, ("excluded:" ++ exclusion)%string, combined, a)
    /\ (final = true -> (0.5 < py_max (0.9%Q, 0.1%Q))%Q)
    /\ ((0.501 <= py_max (0.9%Q, 0.1%Q))%Q -> final = true).
Proof.
  intros self.
  apply (hybrid_overrides_exclusion ascii_lower ascii_split (fun _ => "")
           unit unit string (fun _ text => text) (fun _ _ => false)
           (fun _ _ => (0.9%Q, 0.1%Q)) tt tt
           "User sync pixel update" "" "user sync").
  - discriminate.
  - simpl. tauto.
  - vm_compute. reflexivity.
Defined.

Lemma check_stops_at_rich_text_witness :
  let self := {| model := @None unit; vectorizer := @None unit |} in
  let check :=
    check_for_enhanced_pixel_tickets ascii_lower ascii_split (fun _ => "")
      (fun (_ : unit) text => text) (fun (_ : unit) (_ : string) => false)
      (fun (_ : unit) (_ : string) => (0.9%Q, 0.1%Q)) self in
  let first :=
    {| tk_key := "PS-1"; tk_summary := Some "Pixel not firing";
       tk_description := PStr "" |} in
  let rich :=
    {| tk_key := "PS-2"; tk_summary := Some "Tracking pixel setup";
       tk_description :=
         PDict [ ("type", PStr "doc");
                 ("content", PList [ PDict [ ("type", PStr "text");
                                             ("text", PStr "see below") ] ]) ] |} in
  let last :=
    {| tk_key := "PS-3"; tk_summary := Some "Conversion pixel is down";
       tk_description := PStr "" |} in
  failed (check [first; rich; last]) = true
  /\ alerts (check [first; rich; last]) = alerts (check [first])
  /\ pixel_tickets_found (check [first; rich; last])
     = pixel_tickets_found (check [first]).
Proof.
  intros self check first rich last.
  apply (check_stops_at_rich_text ascii_lower ascii_split (fun _ => "")
           unit unit string (fun _ text => text) (fun _ _ => false)
           (fun _ _ => (0.9%Q, 0.1%Q)) self [first] [last] rich).
  right. split; [reflexivity | discriminate].
Defined.

(** ** Performance metrics *)

Lemma ratio_nonneg (a b : nat) : (0 <= ratio a b)%Q.
Proof.
  unfold ratio. destruct b as [|b].
  - unfold Qdiv. simpl. rewrite Qmult_0_r. apply Qle_refl.
  - apply Qle_shift_div_l.
    + change 0%Q with (inject_Z 0). rewrite <- Zlt_Qlt. lia.
    + rewrite Qmult_0_l. change 0%Q with (inject_Z 0).
      rewrite <- Zle_Qle. lia.
Qed.

Lemma ratio_le_1 (a b : nat) : a <= b -> 0 < b -> (ratio a b <= 1)%Q.
Proof.
  intros Hab Hb. unfold ratio. apply Qle_shift_div_r.
  - change 0%Q with (inject_Z 0). rewrite <- Zlt_Qlt. lia.
  - rewrite Qmult_1_l. rewrite <- Zle_Qle. lia.
Qed.

Lemma ratio_pos (a b : nat) : 0 < a -> 0 < b -> (0 < ratio a b)%Q.
Proof.
  intros Ha Hb. unfold ratio. apply Qlt_shift_div_l.
  - change 0%Q with (inject_Z 0). rewrite <- Zlt_Qlt. lia.
  - rewrite Qmult_0_l. change 0%Q with (inject_Z 0).
    rewrite <- Zlt_Qlt. lia.
Qed.

Lemma ratio_zero (b : nat) : (ratio 0 b == 0)%Q.
Proof.
  unfold ratio, Qdiv. simpl. apply Qmult_0_l.
Qed.

(** The harmonic mean the code computes lies between its two
    arguments. *)
Lemma f1_between (p r : Q) :
  (0 <= p)%Q -> (0 <= r)%Q -> (0 < p + r)%Q ->
  (Qmin p r <= 2 * (p * r) / (p + r) <= Qmax p r)%Q.
Proof.
  intros Hp Hr Hpr.
  assert (Hmin1 := Q.le_min_l p r). assert (Hmin2 := Q.le_min_r p r).
  assert (Hmax1 := Q.le_max_l p r). assert (Hmax2 := Q.le_max_r p r).
  split.
  - apply Qle_shift_div_l; [assumption|].
    destruct (Q.min_spec p r) as [[_ E] | [_ E]]; rewrite E; nra.
  - apply Qle_shift_div_r; [assumption|].
    destruct (Q.max_spec p r) as [[_ E] | [_ E]]; rewrite E; nra.
Qed.

Lemma count_feedback_total (db : database) :
  count_feedback true_positive db + count_feedback false_positive db
  + count_feedback false_negative db
  = List.length (feedback db).
Proof.
  unfold count_feedback. induction (feedback db) as [|r rows IH];
    [reflexivity|].
  simpl. destruct (fb_user_feedback r); simpl; lia.
Qed.


Lemma mark_label (ids : list nat) (r : feedback_row) :
  fb_user_feedback (mark ids r) = fb_user_feedback r.
Proof. unfold mark. destruct (existsb _ ids); reflexivity. Qed.

Lemma filter_map_length {A : Type} (keep : A -> bool) (g : A -> A)
    (rows : list A) :
  (forall x, keep (g x) = keep x) ->
  List.length (filter keep (map g rows)) = List.length (filter keep rows).
Proof.
  intros Hg. induction rows as [|x rows IH]; [reflexivity|].
  simpl. rewrite Hg. destruct (keep x); simpl; now rewrite IH.
Qed.

Section StoreMore.

Variable features_json : string -> option string -> string.

Let record' := record_feedback features_json.
Let process_row' := process_row features_json.

Lemma count_feedback_record (db : database) (label' : user_feedback)
    (ticket_id summary : string) (description : option string)
    (detection_reason : string) (label : user_feedback)
    (confidence_score : option Q) :
  count_feedback label'
    (record' db ticket_id summary description detection_reason label
       confidence_score)
  = count_feedback label' db
    + (if user_feedback_eqb label label' then 1 else 0).
Proof.
  unfold count_feedback, record', record_feedback,
    process_feedback_to_training_data.
  rewrite process_rows_feedback.
  rewrite filter_map_length by (intros x; now rewrite mark_label).
  unfold insert_or_replace_feedback. cbn [feedback].
  rewrite filter_app, length_app. cbn [filter fb_user_feedback].
  destruct (user_feedback_eqb label label'); simpl; lia.
Qed.

(** X15.  The metrics count reviews, not tickets: each call of
    [record_feedback] raises [total_feedback] by one and the count of
    its label by one, and leaves the two other counts as they were,
    also for a ticket that was reviewed before. *)
Theorem record_feedback_counts (db : database)
    (model_metrics : option (Q * Q * Q * nat))
    (ticket_id summary : string) (description : option string)
    (detection_reason : string) (label : user_feedback)
    (confidence_score : option Q) :
  let before := get_performance_metrics db model_metrics in
  let after :=
    get_performance_metrics
      (record' db ticket_id summary description detection_reason label
         confidence_score) model_metrics in
  let bump (l : user_feedback) := if user_feedback_eqb label l then 1 else 0 in
  Metrics.total_feedback after = S (Metrics.total_feedback before)
  /\ Metrics.true_positives (Metrics.by_feedback after)
     = Metrics.true_positives (Metrics.by_feedback before) + bump true_positive
  /\ Metrics.false_positives (Metrics.by_feedback after)
     = Metrics.false_positives (Metrics.by_feedback before) + bump false_positive
  /\ Metrics.false_negatives (Metrics.by_feedback after)
     = Metrics.false_negatives (Metrics.by_feedback before) + bump false_negative.
Proof.
  intros before after bump. subst before after bump.
  unfold get_performance_metrics.
  cbn [Metrics.total_feedback Metrics.by_feedback Metrics.true_positives
       Metrics.false_positives Metrics.false_negatives].
  rewrite !count_feedback_record.
  destruct label; simpl; repeat split; lia.
Qed.

(** *** The size of the training store *)

Lemma map_ticket_filter (ticket_id : string) (rows : list training_row) :
  map td_ticket_id
    (filter (fun t => negb (String.eqb (td_ticket_id t) ticket_id)) rows)
  = filter (fun k => negb (String.eqb k ticket_id)) (map td_ticket_id rows).
Proof.
  induction rows as [|t rows IH]; [reflexivity|]. simpl.
  destruct (String.eqb (td_ticket_id t) ticket_id); simpl; now rewrite IH.
Qed.

Lemma process_row_unique (db : database) (r : feedback_row) :
  NoDup (training_tickets db) ->
  NoDup (training_tickets (process_row' db r)).
Proof.
  intros Hnd.
  unfold training_tickets, process_row', process_row, update_processed,
    insert_or_replace_training. cbn [training_data].
  rewrite map_app, map_ticket_filter. cbn [map td_ticket_id].
  apply NoDup_app.
  - now apply NoDup_filter.
  - repeat constructor. intros [].
  - intros k Hk [<- | []]. apply filter_In in Hk. destruct Hk as [_ Hk].
    now rewrite String.eqb_refl in Hk.
Qed.

Lemma process_rows_unique (rows : list feedback_row) (db : database) :
  NoDup (training_tickets db) ->
  NoDup (training_tickets (fold_left process_row' rows db)).
Proof.
  revert db. induction rows as [|r rows IH]; intros db H; [exact H|].
  simpl. apply IH. now apply process_row_unique.
Qed.

Lemma run_unique (evs : list event) (db : database) (log : list nat) :
  NoDup (training_tickets db) ->
  NoDup (training_tickets (fst (run_events features_json evs (db, log)))).
Proof.
  revert db log. induction evs as [|ev evs IH]; intros db log H; [exact H|].
  unfold run_events. simpl. destruct ev; apply IH.
  - exact H.
  - now apply process_rows_unique.
  - exact H.
Qed.

(** In every store a history builds from a fresh one, the training
    table has one row per ticket id with processed feedback. *)
Lemma training_size_run (evs : list event) :
  let db := fst (run_events features_json evs (init_database, [])) in
  NoDup (training_tickets db)
  /\ List.length (training_data db) = List.length (processed_tickets db)
  /\ List.length (training_data db) <= List.length (feedback db).
Proof.
  intros db.
  assert (Hnd : NoDup (training_tickets db))
    by (apply run_unique; constructor).
  pose proof (consistent_run features_json evs init_database []
                consistent_init) as Hc.
  fold db in Hc. set (log := snd _) in Hc.
  assert (Hsame : forall k, In k (training_tickets db)
                            <-> In k (processed_tickets db)).
  { intros k. unfold processed_tickets. rewrite nodup_In, in_map_iff. split.
    - intros Hk. destruct (example_has_flagged _ _ Hc k Hk) as (r & Hr & E & Hp).
      exists r. split; [assumption|]. apply filter_In. now split.
    - intros (r & <- & Hr). apply filter_In in Hr. destruct Hr as [Hr Hp].
      now apply (flagged_has_example _ _ Hc). }
  assert (Hlen : List.length (training_data db)
                 = List.length (processed_tickets db)).
  { rewrite <- (length_map td_ticket_id). fold (training_tickets db).
    apply Permutation_length, NoDup_Permutation;
      [assumption | apply NoDup_nodup | assumption]. }
  split; [assumption|]. split; [assumption|].
  rewrite Hlen. unfold processed_tickets.
  etransitivity.
  - apply NoDup_incl_length; [apply NoDup_nodup|].
    intros k Hk. apply nodup_In in Hk. exact Hk.
  - rewrite length_map. apply filter_length.
Qed.

(** X16.  From a fresh store, after any history of inserts and passes,
    the training table holds exactly one row for each ticket id that
    has processed feedback: its ticket ids are pairwise distinct, and
    its size is the number of distinct reviewed tickets, at most the
    number of feedback rows. *)
Theorem training_rows_are_distinct_tickets (evs : list event) :
  let db := fst (run_events features_json evs (init_database, [])) in
  NoDup (map td_ticket_id (training_data db))
  /\ List.length (training_data db) = List.length (processed_tickets db)
  /\ List.length (training_data db) <= List.length (feedback db).
Proof.
  exact (training_size_run evs).
Qed.

Section TrainGuard.

Variable lower : string -> string.
Variable Trained : Type.
Variable fit_and_save : list string -> list bool -> Trained.


End TrainGuard.

End StoreMore.

(** ** The most common tokens *)

Lemma StronglySorted_firstn {A : Type} (R : A -> A -> Prop) (n : nat)
    (l : list A) :
  StronglySorted R l -> StronglySorted R (firstn n l).
Proof.
  intros H. revert n. induction H as [|x l Hl IH Hx]; intros n.
  - rewrite firstn_nil. constructor.
  - destruct n as [|n]; [constructor|]. simpl. constructor; [apply IH|].
    rewrite Forall_forall in *. intros y Hy. apply Hx.
    now apply In_firstn in Hy.
Qed.

Lemma StronglySorted_across {A : Type} (R : A -> A -> Prop) (l1 l2 : list A) :
  StronglySorted R (l1 ++ l2) ->
  forall x y, In x l1 -> In y l2 -> R x y.
Proof.
  induction l1 as [|a l1 IH]; intros H x y Hx Hy; [destruct Hx|].
  simpl in H. inversion H as [|? ? Hl Ha]; subst.
  destruct Hx as [<- | Hx].
  - rewrite Forall_forall in Ha. apply Ha, in_app_iff. now right.
  - now apply IH.
Qed.

(** What [Counter(tokens).most_common(n)] is. *)
Lemma most_common_top (tokens : list string) (n : nat) :
  let top := most_common n (Counter tokens) in
  List.length top <= n
  /\ NoDup (map fst top)
  /\ StronglySorted by_count_desc top
  /\ (forall t c, In (t, c) top ->
        c = count_occ string_dec tokens t /\ 0 < c)
  /\ (forall t c t', In (t, c) top -> In t' tokens ->
        ~ In t' (map fst top) -> count_occ string_dec tokens t' <= c).
Proof.
  intros top. subst top. unfold most_common.
  set (sorted := sorted_desc (Counter tokens)).
  assert (Hperm : Permutation sorted (Counter tokens))
    by apply sorted_desc_perm.
  assert (Hsorted : StronglySorted by_count_desc sorted)
    by apply sorted_desc_sorted.
  assert (Hkeys : NoDup (map fst sorted)).
  { apply (Permutation_NoDup (Permutation_map fst (Permutation_sym Hperm))).
    apply Counter_NoDup. }
  split; [apply firstn_le_length|].
  split.
  { apply (NoDup_app_remove_r _ (map fst (skipn n sorted))).
    now rewrite <- map_app, firstn_skipn. }
  split; [now apply StronglySorted_firstn|].
  split.
  { intros t c Hin. apply In_firstn in Hin.
    apply (Permutation_in _ Hperm) in Hin. now apply Counter_spec in Hin. }
  intros t c t' Hin Ht' Hout.
  assert (Hc' : In (t', count_occ string_dec tokens t') sorted).
  { apply (Permutation_in _ (Permutation_sym Hperm)). apply Counter_spec.
    split; [reflexivity|]. now apply (count_occ_In string_dec). }
  rewrite <- (firstn_skipn n sorted) in Hc', Hsorted.
  apply in_app_iff in Hc'. destruct Hc' as [Hc' | Hc'].
  - exfalso. apply Hout. apply in_map_iff.
    now exists (t', count_occ string_dec tokens t').
  - exact (StronglySorted_across _ _ _ Hsorted _ _ Hin Hc').
Qed.

Section AnalyzerMore.

Variable lower : string -> string.
Variable split : string -> list string.

(** X18.  [common_fp_patterns] is a true top ten of the tokens of the
    false-positive texts: at most ten entries, of distinct tokens, by
    decreasing count, each with the number of occurrences of its token,
    and no token left out occurs more often than a token listed;
    [common_fn_patterns] is the same for the false-negative texts. *)
Theorem common_patterns_are_top_ten (db : database) :
  let a := analyze_patterns lower split db in
  let top_of (label : user_feedback) (top : list (string * nat)) :=
    let tokens := patterns lower split (select_feedback label db) in
    List.length top <= 10
    /\ NoDup (map fst top)
    /\ StronglySorted by_count_desc top
    /\ (forall t c, In (t, c) top ->
          c = count_occ string_dec tokens t /\ 0 < c)
    /\ (forall t c t', In (t, c) top -> In t' tokens ->
          ~ In t' (map fst top) -> count_occ string_dec tokens t' <= c) in
  top_of false_positive (common_fp_patterns a)
  /\ top_of false_negative (common_fn_patterns a).
Proof.
  intros a top_of. split; apply most_common_top.
Qed.

End AnalyzerMore.

(** *** Ties *)

Lemma insert_desc_stable (c : nat) (x : string * nat)
    (l : list (string * nat)) :
  StronglySorted by_count_desc l ->
  filter (fun pc => snd pc =? c) (insert_desc x l)
  = filter (fun pc => snd pc =? c) (x :: l).
Proof.
  induction l as [|y l IH]; intros Hsorted; [reflexivity|].
  inversion Hsorted as [|? ? Hl Hy]; subst. simpl.
  destruct (Nat.ltb_spec (snd x) (snd y)) as [Hlt | Hge]; [|reflexivity].
  simpl. rewrite (IH Hl). simpl.
  destruct (Nat.eqb_spec (snd x) c) as [Ex | Ex];
    destruct (Nat.eqb_spec (snd y) c) as [Ey | Ey]; try reflexivity.
  lia.
Qed.

(** The sort of [most_common] is stable: the entries of each count keep
    their order. *)
Lemma sorted_desc_stable (c : nat) (l : list (string * nat)) :
  filter (fun pc => snd pc =? c) (sorted_desc l)
  = filter (fun pc => snd pc =? c) l.
Proof.
  induction l as [|x l IH]; [reflexivity|]. simpl sorted_desc.
  rewrite insert_desc_stable by apply sorted_desc_sorted.
  simpl. now rewrite IH.
Qed.

Lemma counter_incr_keys_order (c : list (string * nat)) (token : string) :
  map fst (counter_incr c token)
  = if existsb (String.eqb token) (map fst c) then map fst c
    else map fst c ++ [token].
Proof.
  induction c as [|[k n] c IH]; [reflexivity|]. simpl.
  rewrite (String.eqb_sym token k).
  destruct (String.eqb k token); simpl; [reflexivity|].
  rewrite IH. now destruct (existsb (String.eqb token) (map fst c)).
Qed.

Lemma fold_counter_keys_order (tokens : list string)
    (c : list (string * nat)) :
  map fst (fold_left counter_incr tokens c)
  = fold_left
      (fun seen t => if existsb (String.eqb t) seen then seen else seen ++ [t])
      tokens (map fst c).
Proof.
  revert c. induction tokens as [|t tokens IH]; intros c; [reflexivity|].
  simpl. rewrite IH, counter_incr_keys_order. reflexivity.
Qed.

Lemma Counter_keys_order (tokens : list string) :
  map fst (Counter tokens) = first_occurrences tokens.
Proof.
  apply (fold_counter_keys_order tokens []).
Qed.

(** X19.  Ties are broken by first occurrence: for every [n], the
    tokens that [Counter(tokens).most_common(n)] lists with one count
    come in the order in which they first occur in the text, with none
    skipped: they are the first ones, in that order, of the tokens with
    that count. *)
Theorem most_common_ties_by_first_occurrence
    (tokens : list string) (n c : nat) :
  exists later,
    filter (fun t => count_occ string_dec tokens t =? c)
      (first_occurrences tokens)
    = map fst (filter (fun pc => snd pc =? c)
                 (most_common n (Counter tokens)))
      ++ later.
Proof.
  unfold most_common.
  exists (map fst (filter (fun pc => snd pc =? c)
                     (skipn n (sorted_desc (Counter tokens))))).
  rewrite <- map_app, <- filter_app, firstn_skipn, sorted_desc_stable.
  rewrite <- Counter_keys_order.
  assert (H : forall l, incl l (Counter tokens) ->
            map fst (filter (fun pc => snd pc =? c) l)
            = filter (fun t => count_occ string_dec tokens t =? c)
                (map fst l)).
  { induction l as [|[t k] l IH]; intros Hincl; [reflexivity|].
    assert (Hk : k = count_occ string_dec tokens t).
    { assert (Hin : In (t, k) (Counter tokens)) by (apply Hincl; now left).
      now apply Counter_spec in Hin. }
    assert (IH' := IH (fun x Hx => Hincl x (or_intror Hx))).
    simpl. rewrite <- Hk.
    destruct (k =? c); simpl; now rewrite IH'. }
  symmetry. apply H, incl_refl.
Qed.

(** ** Exclusions in the title *)

Lemma str_in_app_l (needle a b : string) :
  str_in needle a = true -> str_in needle (a ++ b)%string = true.
Proof.
  rewrite !str_in_split. intros (pre & post & ->).
  exists pre, (post ++ b)%string. now rewrite !append_assoc.
Qed.

(** ** The rule engine under the recursion limit *)

Section LimitedRuleEngine.

Variable lower : string -> string.
Variable py_str : nat -> pyval -> result string.
Variable log_debug : nat -> result unit.

Let classify := Limited.is_pixel_related_ticket py_str log_debug lower.

(** The rule engine returns the verdict on the title and the body it
    has read, or raises what the reading of the body raised. *)
Lemma limited_classify_cases (frames : nat) (summary : option string)
    (description : pyval) :
  match classify frames summary description with
  | Ok outcome =>
      outcome = (false, "no_summary")
      \/ exists title desc,
           summary = Some title
           /\ outcome = classify_text (lower (title ++ " " ++ desc)%string)
  | Raise e =>
      (exists title, summary = Some title /\ title <> "")
      /\ (log_debug frames = Raise e \/ py_str frames description = Raise e)
  end.
Proof.
  unfold classify, Limited.is_pixel_related_ticket.
  destruct summary as [title|]; [|now left].
  destruct (String.eqb_spec title "") as [-> | Hne]; [now left|].
  destruct (Limited.desc_text py_str log_debug frames description)
    as [desc | e] eqn:E; cbn [bind].
  - right. now exists title, desc.
  - split; [now exists title|]. now apply limited_desc_text_raise.
Qed.


End LimitedRuleEngine.

(** X20.  An exclusion term in the title settles the verdict whatever
    the body is: whenever the rule engine returns, be the body a
    string, nothing, or a document the normalizer fails on, the ticket
    is rejected with an [excluded:] reason.  The rule engine raises only
    what its handler raises when it falls back on [str(description)]. *)
Theorem excluded_title_excludes (py_str : nat -> pyval -> result string)
    (log_debug : nat -> result unit) (frames : nat)
    (summary term : string) (description : pyval) :
  In term exclusions ->
  str_in term (ascii_lower summary) = true ->
  match Limited.is_pixel_related_ticket py_str log_debug ascii_lower frames
          (Some summary) description with
  | Ok outcome =>
      exists exclusion,
        In exclusion exclusions
        /\ outcome = (false, ("excluded:" ++ exclusion)%string)
  | Raise e =>
      log_debug frames = Raise e \/ py_str frames description = Raise e
  end.
Proof.
  intros Hin Hhit.
  assert (Hne : summary <> "").
  { intros ->. simpl in Hin.
    repeat (destruct Hin as [<- | Hin]; [discriminate Hhit|]). destruct Hin. }
  unfold Limited.is_pixel_related_ticket.
  destruct (String.eqb_spec summary ""); [contradiction|].
  destruct (Limited.desc_text py_str log_debug frames description)
    as [desc | e] eqn:E; cbn [bind].
  - rewrite ascii_lower_app.
    set (rest := ascii_lower (" " ++ desc)).
    assert (Htext : str_in term (ascii_lower summary ++ rest)%string = true)
      by now apply str_in_app_l.
    destruct (first_in_hit _ _ _ Hin Htext) as [x Hx].
    exists x. split; [now apply first_in_some in Hx|].
    unfold classify_text. now rewrite Hx.
  - now apply limited_desc_text_raise.
Qed.

Lemma excluded_title_excludes_witness :
  let py_str := fun (_ : nat) (_ : pyval) => Ok "{'content': None}" in
  let log_debug := fun (_ : nat) => Ok tt in
  exists exclusion,
    In exclusion exclusions
    /\ Limited.is_pixel_related_ticket py_str log_debug ascii_lower 100
         (Some "Planning Module: conversion pixel missing")
         (PDict [("content", PNone)])
       = Ok (false, ("excluded:" ++ exclusion)%string).
Proof.
  intros py_str log_debug.
  pose proof (excluded_title_excludes py_str log_debug 100
                "Planning Module: conversion pixel missing" "planning module"
                (PDict [("content", PNone)])) as H.
  destruct (Limited.is_pixel_related_ticket py_str log_debug ascii_lower 100
              (Some "Planning Module: conversion pixel missing")
              (PDict [("content", PNone)])) as [outcome | e] eqn:E.
  - destruct H as (exclusion & Hin & ->).
    + simpl. tauto.
    + vm_compute. reflexivity.
    + exists exclusion. now split.
  - vm_compute in E. discriminate E.
Defined.
